(** * osquery forensic tables: [sleuthkit.cpp]

    A shallow embedding of [osquery/tables/forensic/sleuthkit.cpp]: the
    [DeviceHelper] class (cached image/volume open, partition iteration, the
    bounded recursive directory walk) and the two table generators
    [genDevicePartitions] and [genDeviceFile].

    The Sleuth Kit objects the code reads ([TskVsPartInfo], [TskFsInfo],
    [TskFsDir], [TskFsFile], [TskFsMeta]) are records holding what their
    accessors return.  Every call into the library that opens something, the
    diagnostic log line and every recursive descent of the walker are recorded
    in a trace, so that statements such as "the open is attempted once" or
    "no file open is attempted" can be made about the code. *)

From Stdlib Require Import ZArith Ascii String List Sorting.Sorted Sorting.Permutation.
From stdpp Require Import base decidable option list sorting mapset gmap strings pretty.

Local Open Scope Z_scope.
#[local] Set Warnings "-clear-no-such-hyp".

(** ** Machine integers *)

(** [size_t], [TSK_INUM_T] and [TSK_DADDR_T] are unsigned 64-bit integers. *)
Definition two64 : Z := 2 ^ 64.

Definition wrap64 (x : Z) : Z := x mod two64.

(** ** Rows *)

(** A [Row] is a [std::map<std::string, std::string>]; [QueryData] is a
    [std::vector<Row>]. *)
Abbreviation Row := (gmap string string).
Abbreviation QueryData := (list (gmap string string)).

(** [BIGINT], [INTEGER] and [TEXT] of [osquery/tables.h] are all
    [boost::lexical_cast<std::string>]: the decimal rendering of a number.
    [std::to_string] renders the same way. *)
Definition BIGINT (x : Z) : string := pretty x.
Definition INTEGER (x : Z) : string := pretty x.
Definition TEXT (x : Z) : string := pretty x.
Definition to_string (x : Z) : string := pretty x.

(** ** Paths (Boost.Filesystem) *)

Definition slash : ascii := "/"%char.

Fixpoint last_char (s : string) : option ascii :=
  match s with
  | EmptyString => None
  | String c EmptyString => Some c
  | String _ s' => last_char s'
  end.

Definition first_char (s : string) : option ascii :=
  match s with
  | EmptyString => None
  | String c _ => Some c
  end.

Definition is_sep (c : option ascii) : bool :=
  match c with
  | Some c => if decide (c = slash) then true else false
  | None => false
  end.

(** [(fs::path(p) / name).string()]: appending the empty path changes
    nothing; otherwise a separator is put between the two unless [p] is empty,
    [p] already ends with one or [name] starts with one. *)
Definition path_append (p name : string) : string :=
  match name with
  | EmptyString => p
  | _ =>
      if is_sep (first_char name) then p +:+ name
      else match p with
           | EmptyString => name
           | _ => if is_sep (last_char p) then p +:+ name
                  else p +:+ "/" +:+ name
           end
  end.

(** The text after the last separator of [s], with the text accumulated since
    the last separator in [acc]. *)
Fixpoint after_last_sep (s acc : string) : string :=
  match s with
  | EmptyString => acc
  | String c s' =>
      if decide (c = slash) then after_last_sep s' EmptyString
      else after_last_sep s' (acc +:+ String c EmptyString)
  end.

Fixpoint only_seps (s : string) : bool :=
  match s with
  | EmptyString => true
  | String c s' => if decide (c = slash) then only_seps s' else false
  end.

Fixpoint has_sep (s : string) : bool :=
  match s with
  | EmptyString => false
  | String c s' => if decide (c = slash) then true else has_sep s'
  end.

(** [s] is a run of characters other than the separator followed by
    separators only. *)
Fixpoint name_then_seps (s : string) : bool :=
  match s with
  | EmptyString => true
  | String c s' => if decide (c = slash) then only_seps s'
                   else name_then_seps s'
  end.

(** What follows the two separators that open a network name. *)
Definition after_two_seps (p : string) : option string :=
  match p with
  | String a (String b rest) =>
      if decide (a = slash) then
        if decide (b = slash) then Some rest else None
      else None
  | _ => None
  end.

(** [fs::path(p).leaf().string()], the [filename()] of Boost.Filesystem
    version 3: the last element of the path.  The root directory is its own
    leaf, also after a network name (["//net/"] gives ["/"]); a network name
    (["//net"], ["//"]) is its own leaf; any other trailing separator gives
    ["."]. *)
Definition path_leaf (p : string) : string :=
  match p with
  | EmptyString => EmptyString
  | _ =>
      if decide (p = "//") then p
      else if is_sep (last_char p) then
        if only_seps p then "/"
        else match after_two_seps p with
             | Some rest =>
                 if negb (is_sep (first_char rest)) && name_then_seps rest
                 then "/" else "."
             | None => "."
             end
      else match after_two_seps p with
           | Some rest => if has_sep rest then after_last_sep p EmptyString
                          else p
           | None => after_last_sep p EmptyString
           end
  end.

(** [TSK_FS_ISDOT]: the name is ["."] or [".."]. *)
Definition TSK_FS_ISDOT (name : string) : bool :=
  if decide (name = ".") then true
  else if decide (name = "..") then true
  else false.

(** ** The Sleuth Kit data the code reads *)

(** [TSK_FS_META_TYPE_ENUM]. *)
Inductive TSK_FS_META_TYPE_ENUM :=
| TSK_FS_META_TYPE_UNDEF
| TSK_FS_META_TYPE_REG
| TSK_FS_META_TYPE_DIR
| TSK_FS_META_TYPE_FIFO
| TSK_FS_META_TYPE_CHR
| TSK_FS_META_TYPE_BLK
| TSK_FS_META_TYPE_LNK
| TSK_FS_META_TYPE_SHAD
| TSK_FS_META_TYPE_SOCK
| TSK_FS_META_TYPE_WHT
| TSK_FS_META_TYPE_VIRT.

Global Instance TSK_FS_META_TYPE_ENUM_eq_dec : EqDecision TSK_FS_META_TYPE_ENUM.
Proof. solve_decision. Defined.

(** [kTSKTypeNames]: the lookup table of type names; a type that is not a key
    of the table has no entry. *)
Definition kTSKTypeNames (t : TSK_FS_META_TYPE_ENUM) : option string :=
  match t with
  | TSK_FS_META_TYPE_REG => Some "regular"
  | TSK_FS_META_TYPE_DIR => Some "directory"
  | TSK_FS_META_TYPE_LNK => Some "symlink"
  | TSK_FS_META_TYPE_BLK => Some "block"
  | TSK_FS_META_TYPE_CHR => Some "character"
  | TSK_FS_META_TYPE_FIFO => Some "fifo"
  | TSK_FS_META_TYPE_SOCK => Some "socket"
  | _ => None
  end.

(** [TskFsMeta]: what the accessors of a file's metadata return.  [name2] is
    the list of parent names; [getName2 i] is its [i]-th element, a null
    pointer when the list is shorter. *)
Record TskFsMeta := {
  getAddr : Z;
  getUid : Z;
  getGid : Z;
  getMode : Z;
  getSize : Z;
  getATime : Z;
  getMTime : Z;
  getCrTime : Z;
  getNLink : Z;
  getType : TSK_FS_META_TYPE_ENUM;
  name2 : list string
}.

Definition getName2 (meta : TskFsMeta) (idx : nat) : option string :=
  name2 meta !! idx.

(** [TskFsFile]: [getMeta] and [getName] may return a null pointer;
    [getFsInfo] gives access to the block size of the owning filesystem. *)
Record TskFsFile := {
  getMeta : option TskFsMeta;
  getName : option string;
  getFsInfo : option Z
}.

(** A directory is the sequence of its entries in native enumeration order;
    [dir->getFile(i)] may return a null pointer. *)
Abbreviation TskFsDir := (list (option TskFsFile)).

(** [TskFsInfo]: an opened filesystem.  [dir_open], [file_open_path] and
    [file_open_meta] are the three [open] calls made on it; [None] is a
    non-zero status. *)
Record TskFsInfo := {
  getFsType : Z;
  getFsFlags : Z;
  getOffset : Z;
  getFsBlockSize : Z;
  getBlockCount : Z;
  getINumCount : Z;
  getRootINum : Z;
  dir_open : Z -> option TskFsDir;
  file_open_path : string -> option TskFsFile;
  file_open_meta : Z -> option TskFsFile
}.

(** [TSK_VS_PART_FLAG_ENUM] of [tsk/libtsk.h]. *)
Definition TSK_VS_PART_FLAG_ALLOC : Z := 1.
Definition TSK_VS_PART_FLAG_UNALLOC : Z := 2.
Definition TSK_VS_PART_FLAG_META : Z := 4.

(** [TskVsPartInfo]: a partition of a volume; [part_fs] is the outcome of
    [TskFsInfo::open] on it, [None] for a non-zero status. *)
Record TskVsPartInfo := {
  getPartAddr : Z;
  getDesc : option string;
  getFlags : Z;
  getStart : Z;
  getLen : Z;
  part_fs : option TskFsInfo
}.

(** [TskVsInfo]: a volume system; [getPart i] is the [i]-th element of
    [vs_parts], possibly a null pointer. *)
Record TskVsInfo := {
  vs_status : Z;
  getBlockSize : Z;
  vs_parts : list (option TskVsPartInfo)
}.

(** [TskImgInfo]: [img_status] is what [open] returns on the device. *)
Record TskImgInfo := {
  img_status : Z;
  img_volume : TskVsInfo
}.

(** The devices of the machine, by path. *)
Abbreviation World := (string -> TskImgInfo).

(** ** Traces *)

Inductive Event :=
| EvImgOpen (device : string)
| EvVsOpen (device : string)
| EvFsOpen (partition : Z)
| EvDirOpen (inum : Z)
| EvFileOpenPath (path : string)
| EvFileOpenMeta (inum : Z)
| EvLog (msg : string)
| EvDescend (path : string) (inode : Z).

Global Instance Event_eq_dec : EqDecision Event.
Proof. solve_decision. Defined.

(** ** Outcomes *)

(** A call either returns, dereferences a null pointer, or (in the model
    only) runs out of the recursion budget it was given. *)
Inductive result (A : Type) :=
| Ok (a : A)
| NullDeref
| OutOfFuel.

Arguments Ok {A} a.
Arguments NullDeref {A}.
Arguments OutOfFuel {A}.

Global Instance result_bind : MBind result := fun A B f x =>
  match x with
  | Ok a => f a
  | NullDeref => NullDeref
  | OutOfFuel => OutOfFuel
  end.

(** ** [std::set<std::string>] *)

(** [s.insert(x)]: the set [{[x]} ∪ s] (lemma [set_insert_union] below),
    built by one insertion into the underlying map. *)
Definition set_insert (x : string) (s : gset string) : gset string :=
  Mapset (<[x := ()]> (mapset_car s)).

(** ** [class DeviceHelper] *)

Record DeviceHelper := {
  image_ : option TskImgInfo;
  volume_ : option TskVsInfo;
  device_path_ : string;
  opened_ : bool;
  opened_result_ : bool;
  stack_ : Z;
  loops_ : gset string
}.

(** The constructor: nothing opened, counter at zero, no path visited. *)
Definition DeviceHelper_new (device_path : string) : DeviceHelper :=
  {| image_ := None; volume_ := None; device_path_ := device_path;
     opened_ := false; opened_result_ := false; stack_ := 0; loops_ := ∅ |}.

Definition set_opened (img : option TskImgInfo) (vol : option TskVsInfo)
    (res : bool) (dh : DeviceHelper) : DeviceHelper :=
  {| image_ := img; volume_ := vol; device_path_ := device_path_ dh;
     opened_ := true; opened_result_ := res;
     stack_ := stack_ dh; loops_ := loops_ dh |}.

Definition set_stack (s : Z) (dh : DeviceHelper) : DeviceHelper :=
  {| image_ := image_ dh; volume_ := volume_ dh;
     device_path_ := device_path_ dh;
     opened_ := opened_ dh; opened_result_ := opened_result_ dh;
     stack_ := s; loops_ := loops_ dh |}.

Definition set_loops (l : gset string) (dh : DeviceHelper) : DeviceHelper :=
  {| image_ := image_ dh; volume_ := volume_ dh;
     device_path_ := device_path_ dh;
     opened_ := opened_ dh; opened_result_ := opened_result_ dh;
     stack_ := stack_ dh; loops_ := l |}.

(** What a member function works on: the helper, the [QueryData& results]
    it is handed, and the trace. *)
Record Run := {
  helper : DeviceHelper;
  results : QueryData;
  trace : list Event
}.

Definition with_helper (f : DeviceHelper -> DeviceHelper) (r : Run) : Run :=
  {| helper := f (helper r); results := results r; trace := trace r |}.

Definition push_back (row : Row) (r : Run) : Run :=
  {| helper := helper r; results := results r ++ [row]; trace := trace r |}.

Definition emit (ev : Event) (r : Run) : Run :=
  {| helper := helper r; results := results r; trace := trace r ++ [ev] |}.

(** [DeviceHelper::getVolume()->getBlockSize()]: zero on a volume that is
    not open. *)
Definition volume_block_size (dh : DeviceHelper) : Z :=
  match volume_ dh with
  | Some v => getBlockSize v
  | None => 0
  end.

(** [DeviceHelper::resetStack]. *)
Definition resetStack (dh : DeviceHelper) : DeviceHelper :=
  set_loops ∅ (set_stack 0 dh).

(** [DeviceHelper::open]: the cached outcome when the open was attempted;
    otherwise the image is opened, and the volume on top of it when the image
    opened. *)
Definition open (w : World) (r : Run) : bool * Run :=
  let dh := helper r in
  if opened_ dh then (opened_result_ dh, r)
  else
    let img := w (device_path_ dh) in
    let r := emit (EvImgOpen (device_path_ dh)) r in
    if negb (img_status img =? 0) then
      (false, with_helper (set_opened (image_ dh) (volume_ dh) false) r)
    else
      let r := emit (EvVsOpen (device_path_ dh)) r in
      let vol := img_volume img in
      if vs_status vol =? 0 then
        (true, with_helper (set_opened (Some img) (Some vol) true) r)
      else
        (false, with_helper (set_opened (Some img) (volume_ dh) false) r).

(** The loop of [DeviceHelper::partitions] over the partitions of the
    volume: a null partition is skipped. *)
Fixpoint for_each_part (predicate : TskVsPartInfo -> Run -> result Run)
    (parts : list (option TskVsPartInfo)) (r : Run) : result Run :=
  match parts with
  | [] => Ok r
  | None :: parts' => for_each_part predicate parts' r
  | Some part :: parts' =>
      r' ← predicate part r; for_each_part predicate parts' r'
  end.

(** [DeviceHelper::partitions]. *)
Definition partitions (w : World)
    (predicate : TskVsPartInfo -> Run -> result Run) (r : Run) : result Run :=
  let '(ok, r) := open w r in
  if ok then
    for_each_part predicate
      (match volume_ (helper r) with Some v => vs_parts v | None => [] end) r
  else Ok r.

(** ** [DeviceHelper::generateFile] *)

Definition meta_columns (meta : TskFsMeta) (r : Row) : Row :=
  let r := <["inode" := BIGINT (getAddr meta)]> r in
  let r := <["uid" := BIGINT (getUid meta)]> r in
  let r := <["gid" := BIGINT (getGid meta)]> r in
  let r := <["mode" := TEXT (getMode meta)]> r in
  let r := <["size" := BIGINT (getSize meta)]> r in
  let r := <["atime" := BIGINT (getATime meta)]> r in
  let r := <["mtime" := BIGINT (getMTime meta)]> r in
  let r := <["ctime" := BIGINT (getCrTime meta)]> r in
  let r := <["hard_links" := INTEGER (getNLink meta)]> r in
  match kTSKTypeNames (getType meta) with
  | Some name => <["type" := name]> r
  | None => <["type" := "unknown"]> r
  end.

Definition file_row (device_path partition : string) (file : TskFsFile)
    (path : string) : Row :=
  let r : Row := <["device" := device_path]> ∅ in
  let r := <["partition" := partition]> r in
  let r := <["path" := path]> r in
  let r := <["filename" := path_leaf path]> r in
  let r := match getFsInfo file with
           | Some block_size => <["block_size" := BIGINT block_size]> r
           | None => r
           end in
  match getMeta file with
  | Some meta => meta_columns meta r
  | None => r
  end.

Definition generateFile (partition : string) (file : TskFsFile)
    (path : string) (r : Run) : Run :=
  push_back (file_row (device_path_ (helper r)) partition file path) r.

(** ** [DeviceHelper::generateFiles] *)

(** [std::map<TSK_INUM_T, std::string>]: the pairs in ascending key order;
    [additional[k] = v] replaces the value of a key that is present. *)
Abbreviation inode_map := (list (Z * string)).

Fixpoint map_assign (k : Z) (v : string) (m : inode_map) : inode_map :=
  match m with
  | [] => [(k, v)]
  | (k', v') :: m' =>
      if k <? k' then (k, v) :: (k', v') :: m'
      else if k =? k' then (k, v) :: m'
      else (k', v') :: map_assign k v m'
  end.

(** The path of an entry: [path / name] when the entry has a name, the
    empty string otherwise. *)
Definition leaf_path (path : string) (name : option string) : string :=
  match name with
  | Some n => path_append path n
  | None => EmptyString
  end.

(** One iteration of the loop over the directory (lines 229-261). *)
Definition visit_entry (partition path : string)
    (acc : inode_map * Run) (entry : option TskFsFile) : inode_map * Run :=
  match entry with
  | None => acc
  | Some file =>
      match getMeta file with
      | None => acc
      | Some meta =>
          let leaf := leaf_path path (getName file) in
          match getType meta with
          | TSK_FS_META_TYPE_REG =>
              (fst acc, generateFile partition file leaf (snd acc))
          | TSK_FS_META_TYPE_DIR =>
              match getName file with
              | Some name =>
                  if TSK_FS_ISDOT name then acc
                  else (map_assign (getAddr meta) leaf (fst acc), snd acc)
              | None => acc
              end
          | _ => acc
          end
      end
  end.

Definition scan_dir (partition path : string) (dir : TskFsDir) (r : Run)
    : inode_map * Run :=
  fold_left (visit_entry partition path) dir ([], r).

(** The loop over [additional] (lines 265-270), with the recursive call as a
    parameter. *)
Fixpoint descend (recurse : string -> Z -> Run -> option Run)
    (additional : inode_map) (r : Run) : option Run :=
  match additional with
  | [] => Some r
  | (inode, path) :: rest =>
      if decide (path ∈ loops_ (helper r)) then descend recurse rest r
      else
        match recurse path inode (emit (EvDescend path inode) r) with
        | None => None
        | Some r' =>
            descend recurse rest
              (with_helper (fun dh => set_loops (set_insert path (loops_ dh)) dh) r')
        end
  end.

(** [stack_++]: the counter is a [size_t]. *)
Definition bump (dh : DeviceHelper) : DeviceHelper :=
  set_stack (wrap64 (stack_ dh + 1)) dh.

(** [fuel] bounds the nesting of calls that go past the guard; [None] says
    that the budget was too small, not that the code stops. *)
Fixpoint generateFiles (fuel : nat) (partition : string) (fs : TskFsInfo)
    (path : string) (inode : Z) (r : Run) : option Run :=
  let old := stack_ (helper r) in
  let r := with_helper bump r in
  if 1024 <? old then Some r
  else
    match fuel with
    | O => None
    | S fuel' =>
        let inum := if inode =? 0 then getRootINum fs else inode in
        let r := emit (EvDirOpen inum) r in
        match dir_open fs inum with
        | None => Some r
        | Some dir =>
            let '(additional, r) := scan_dir partition path dir r in
            descend (generateFiles fuel' partition fs) additional r
        end
    end.

(** ** The query and the loop over the devices *)

(** [context.constraints[c].getAll(EQUALS)] for the four columns the tables
    read: each is a [std::set<std::string>], given here as the list of its
    elements in the order in which the code iterates over it. *)
Record QueryContext := {
  devices : list string;
  parts : list string;
  paths : list string;
  inodes : list string
}.

(** What a table generator has produced so far: its [results] and the
    trace. *)
Abbreviation Output := (QueryData * list Event)%type.

(** One iteration of [for (const auto& dev : devices)]: a [DeviceHelper] is
    constructed for [dev] and its partitions are handed to [predicate]. *)
Definition on_device (w : World)
    (predicate : string -> TskVsPartInfo -> Run -> result Run)
    (dev : string) (out : Output) : result Output :=
  r ← partitions w (predicate dev)
        {| helper := DeviceHelper_new dev; results := fst out;
           trace := snd out |};
  Ok (results r, trace r).

Fixpoint for_each_device (w : World)
    (predicate : string -> TskVsPartInfo -> Run -> result Run)
    (devs : list string) (out : Output) : result Output :=
  match devs with
  | [] => Ok out
  | dev :: devs' =>
      out' ← on_device w predicate dev out;
      for_each_device w predicate devs' out'
  end.

(** ** [genDevicePartitions] *)

Section Partitions.

(** [TskFsInfo::typeToName] of the library. *)
Variable typeToName : Z -> string.

(** The type label from the flags of the partition (lines 141-147). *)
Definition partition_type (r : Row) (part : TskVsPartInfo) : Row :=
  if negb (Z.land (getFlags part) TSK_VS_PART_FLAG_META =? 0) then
    <["type" := "meta"]> r
  else if negb (Z.land (getFlags part) TSK_VS_PART_FLAG_UNALLOC =? 0) then
    <["type" := "unallocated"]> r
  else
    <["type" := "normal"]> r.

(** The row built for one partition (lines 131-166). *)
Definition partition_row (dev : string) (dh : DeviceHelper)
    (part : TskVsPartInfo) : Row :=
  let r : Row := <["device" := dev]> ∅ in
  let r := <["partition" := to_string (getPartAddr part)]> r in
  let r := match getDesc part with
           | Some desc => <["label" := desc]> r
           | None => r
           end in
  let r := <["flags" := "0"]> r in
  let r := partition_type r part in
  match part_fs part with
  | None =>
      let r := <["offset" :=
                   BIGINT (wrap64 (getStart part * volume_block_size dh))]> r in
      let r := <["blocks_size" := BIGINT (volume_block_size dh)]> r in
      let r := <["blocks" := BIGINT (getLen part)]> r in
      let r := <["inodes" := "-1"]> r in
      <["flags" := INTEGER (getFlags part)]> r
  | Some fs =>
      let r := <["type" := typeToName (getFsType fs)]> r in
      let r := <["flags" := INTEGER (getFsFlags fs)]> r in
      let r := <["offset" := BIGINT (getOffset fs)]> r in
      let r := <["blocks_size" := BIGINT (getFsBlockSize fs)]> r in
      let r := <["blocks" := BIGINT (getBlockCount fs)]> r in
      <["inodes" := BIGINT (getINumCount fs)]> r
  end.

(** The lambda handed to [partitions] (lines 130-169). *)
Definition partition_predicate (dev : string) (part : TskVsPartInfo)
    (r : Run) : result Run :=
  Ok (push_back (partition_row dev (helper r) part)
        (emit (EvFsOpen (getPartAddr part)) r)).

Definition genDevicePartitions (w : World) (context : QueryContext)
    : result Output :=
  for_each_device w partition_predicate (devices context) ([], []).

End Partitions.

(** ** [genDeviceFile] *)

Definition is_digit (c : ascii) : option Z :=
  let n := Z.of_N (N_of_ascii c) in
  if (48 <=? n) && (n <=? 57) then Some (n - 48) else None.

Fixpoint digits_value (s : string) (acc : Z) : option Z :=
  match s with
  | EmptyString => Some acc
  | String c s' =>
      match is_digit c with
      | Some d => digits_value s' (10 * acc + d)
      | None => None
      end
  end.

Definition LONG_MAX : Z := 2 ^ 63 - 1.
Definition LONG_MIN : Z := - 2 ^ 63.

(** The number a decimal string denotes: an optional sign and at least one
    digit, nothing else. *)
Definition parse_decimal (rep : string) : option Z :=
  match rep with
  | EmptyString => None
  | String c s' =>
      if decide (c = "-"%char) then
        match s' with
        | EmptyString => None
        | _ => Z.opp <$> digits_value s' 0
        end
      else if decide (c = "+"%char) then
        match s' with
        | EmptyString => None
        | _ => digits_value s' 0
        end
      else digits_value rep 0
  end.

(** Modelled from the spec: [safeStrtol] of [osquery/core/conversions.h],
    which is not among the sources.  It "parses an inode address from a
    decimal string": the status says whether the whole string is a decimal
    number that fits a [long], and [out] receives that number, or zero when
    the parse fails. *)
Definition safeStrtol (rep : string) (base : Z) (out : Z) : bool * Z :=
  match parse_decimal rep with
  | Some n => if (LONG_MIN <=? n) && (n <=? LONG_MAX) then (true, n)
              else (false, 0)
  | None => (false, 0)
  end.

(** The body of [for (const auto& path : paths)] (lines 318-322). *)
Definition lookup_path (address : string) (fs : TskFsInfo) (r : Run)
    (path : string) : Run :=
  let r := emit (EvFileOpenPath path) r in
  match file_open_path fs path with
  | Some file => generateFile address file path r
  | None => r
  end.

(** The body of [for (const auto& inode : inodes)] (lines 326-338).  The
    status of [safeStrtol] is not looked at.  [meta->getName2(0)->getName()]
    dereferences what [getName2] returns. *)
Definition lookup_inode (address : string) (fs : TskFsInfo) (inode : string)
    (r : Run) : result Run :=
  let meta := snd (safeStrtol inode 10 0) in
  let inum := wrap64 meta in
  let r := emit (EvFileOpenMeta inum) r in
  match file_open_meta fs inum with
  | Some file =>
      match getMeta file with
      | Some meta =>
          match getName2 meta 0 with
          | Some name => Ok (generateFile address file name r)
          | None => NullDeref
          end
      | None => Ok (generateFile address file EmptyString r)
      end
  | None => Ok r
  end.

Fixpoint lookup_inodes (address : string) (fs : TskFsInfo)
    (inodes : list string) (r : Run) : result Run :=
  match inodes with
  | [] => Ok r
  | inode :: inodes' =>
      r' ← lookup_inode address fs inode r;
      lookup_inodes address fs inodes' r'
  end.

(** The lambda handed to [partitions] (lines 292-341). *)
Definition file_predicate (fuel : nat) (context : QueryContext)
    (dev : string) (part : TskVsPartInfo) (r : Run) : result Run :=
  let address := to_string (getPartAddr part) in
  if decide (address = default EmptyString (head (parts context))) then
    let r := emit (EvFsOpen (getPartAddr part)) r in
    match part_fs part with
    | None => Ok r
    | Some fs =>
        r ← (match inodes context, paths context with
             | [], [] =>
                 match generateFiles fuel address fs "/" 0 r with
                 | Some r' => Ok (with_helper resetStack r')
                 | None => OutOfFuel
                 end
             | _, _ => Ok r
             end);
        lookup_inodes address fs (inodes context)
          (fold_left (lookup_path address fs) (paths context) r)
    end
  else Ok r.

Definition diagnostic : string :=
  "Device files require at least one device and a single partition".

Definition genDeviceFile (fuel : nat) (w : World) (context : QueryContext)
    : result Output :=
  if bool_decide (devices context = [])
     || negb (bool_decide (length (parts context) = 1%nat))
  then Ok ([], [EvLog diagnostic])
  else
    for_each_device w (file_predicate fuel context) (devices context)
      ([], []).

(** ** Vocabulary of the statements *)

(** The keys of the map, in iteration order. *)
Definition keys (m : inode_map) : list Z := m.*1.

(** The subdirectory an entry contributes to [additional], if any. *)
Definition entry_subdir (path : string) (entry : option TskFsFile)
    : option (Z * string) :=
  file ← entry;
  meta ← getMeta file;
  name ← getName file;
  if decide (getType meta = TSK_FS_META_TYPE_DIR) then
    if TSK_FS_ISDOT name then None
    else Some (getAddr meta, path_append path name)
  else None.

(** The row an entry contributes to [results], if any. *)
Definition entry_row (device_path partition path : string)
    (entry : option TskFsFile) : option Row :=
  file ← entry;
  meta ← getMeta file;
  if decide (getType meta = TSK_FS_META_TYPE_REG) then
    Some (file_row device_path partition file
            (leaf_path path (getName file)))
  else None.

(** The assignments [additional[k] = v] for the pairs of [kvs], in order. *)
Definition assign_all (kvs : list (Z * string)) (m : inode_map) : inode_map :=
  fold_left (fun m kv => map_assign kv.1 kv.2 m) kvs m.

(** The map [additional] that the loop over [dir] leaves behind. *)
Definition pending (path : string) (dir : TskFsDir) : inode_map :=
  assign_all (omap (entry_subdir path) dir) [].

(** The inode a call opens: the root of the filesystem for the inode 0. *)
Definition root_or (fs : TskFsInfo) (inode : Z) : Z :=
  if inode =? 0 then getRootINum fs else inode.

(** The paths of the recursive calls of a trace, in call order. *)
Definition descents (evs : list Event) : list string :=
  omap (fun ev => match ev with EvDescend p _ => Some p | _ => None end) evs.

(** The inodes of the directory opens of a trace: one per call that went
    past the guard. *)
Definition dir_opens (evs : list Event) : list Z :=
  omap (fun ev => match ev with EvDirOpen i => Some i | _ => None end) evs.

(** How many more calls can go past the guard when the counter is [s]. *)
Definition headroom (s : Z) : Z := Z.max 0 (1025 - s).

(** With directories of at most [B] entries, the counter never passes
    [ceiling B s] in a walk that starts with the counter at [s]. *)
Definition ceiling (B s : Z) : Z := s + headroom s * B.

(** A filesystem whose directories have at most [B] entries. *)
Definition dirs_bounded (fs : TskFsInfo) (B : Z) : Prop :=
  forall (i : Z) (dir : TskFsDir),
    dir_open fs i = Some dir -> Z.of_nat (length dir) <= B.

(** No entry of a directory of [fs] carries the empty name. *)
Definition names_nonempty (fs : TskFsInfo) : Prop :=
  forall (i : Z) (dir : TskFsDir) (file : TskFsFile),
    dir_open fs i = Some dir -> Some file ∈ dir ->
    getName file <> Some EmptyString.

(** [advance B k slack r r']: from [r] to [r'] the trace only grew, the
    counter went up by [k] plus one for every recursive call, never down, and
    each directory open used up one unit of headroom. *)
Definition advance (B k slack : Z) (r r' : Run) : Prop :=
  exists evs : list Event,
    trace r' = trace r ++ evs
    /\ stack_ (helper r') =
         stack_ (helper r) + k + Z.of_nat (length (descents evs))
    /\ Z.of_nat (length (dir_opens evs)) + headroom (stack_ (helper r'))
         <= headroom (stack_ (helper r))
    /\ ceiling B (stack_ (helper r')) <= ceiling B (stack_ (helper r)) + slack.

(** [fresh_descents len r r']: from [r] to [r'] the trace only grew; the
    paths descended into are pairwise different, were not in the visited set
    of [r], are longer than [len], and are exactly what the visited set
    gained. *)
Definition fresh_descents (len : nat) (r r' : Run) : Prop :=
  exists evs : list Event,
    trace r' = trace r ++ evs
    /\ NoDup (descents evs)
    /\ (forall p : string,
          (p ∈ loops_ (helper r')) <->
          (p ∈ loops_ (helper r)) \/ (p ∈ descents evs))
    /\ (forall p : string, p ∈ descents evs ->
          (p ∉ loops_ (helper r)) /\ (len < String.length p)%nat).




(** A sequence of calls of [open], each finding the machine in the state
    given for it. *)
Fixpoint open_each (ws : list World) (r : Run) : list bool * Run :=
  match ws with
  | [] => ([], r)
  | w :: ws' =>
      let '(ok, r1) := open w r in
      let '(oks, r2) := open_each ws' r1 in
      (ok :: oks, r2)
  end.

(** The helper of a device whose image and volume opened. *)
Definition opened_helper (w : World) (dev : string) : DeviceHelper :=
  set_opened (Some (w dev)) (Some (img_volume (w dev))) true
    (DeviceHelper_new dev).

(** The image and the volume of the device both open. *)
Definition opens (w : World) (dev : string) : bool :=
  (img_status (w dev) =? 0) && (vs_status (img_volume (w dev)) =? 0).

(** The partitions of a device that [partitions] hands to its predicate:
    those that are not null, in index order, when the device opens. *)
Definition listed_parts (w : World) (dev : string) : list TskVsPartInfo :=
  if opens w dev then omap id (vs_parts (img_volume (w dev))) else [].

(** The partitions of a listing, each with its device: the devices in the
    order of the request, the partitions of a device in index order. *)
Definition listed (w : World) (context : QueryContext)
    : list (string * TskVsPartInfo) :=
  dev ← devices context; (fun part => (dev, part)) <$> listed_parts w dev.

(** The columns [cols] of the rows. *)
Definition columns (cols : list string) (rows : QueryData)
    : list (list (option string)) :=
  (fun row : Row => (fun c => row !! c) <$> cols) <$> rows.

(** What is observed of an outcome: the columns [cols] of its rows, and its
    trace. *)
Definition observe (cols : list string) (x : result Output)
    : result (list (list (option string)) * list Event) :=
  out ← x; Ok (columns cols out.1, out.2).

(** ** Example images and machines *)

(** Metadata of the given address and type, with the given parent names. *)
Definition mk_meta (addr : Z) (type : TSK_FS_META_TYPE_ENUM)
    (names : list string) : TskFsMeta :=
  {| getAddr := addr; getUid := 0; getGid := 0; getMode := 420;
     getSize := 0; getATime := 0; getMTime := 0; getCrTime := 0;
     getNLink := 1; getType := type; name2 := names |}.

(** A directory entry with a name and metadata. *)
Definition mk_entry (name : string) (addr : Z) (type : TSK_FS_META_TYPE_ENUM)
    : option TskFsFile :=
  Some {| getMeta := Some (mk_meta addr type []); getName := Some name;
          getFsInfo := Some 4096 |}.

(** A filesystem with the given root inode and directories. *)
Definition mk_fs (root : Z) (dirs : Z -> option TskFsDir)
    (by_meta : Z -> option TskFsFile) : TskFsInfo :=
  {| getFsType := 1; getFsFlags := 0; getOffset := 0; getFsBlockSize := 4096;
     getBlockCount := 1000; getINumCount := 5000; getRootINum := root;
     dir_open := dirs; file_open_path := fun _ => None;
     file_open_meta := by_meta |}.

(** A chain of [n] nested directories: directory [i] holds the directory
    ["d"] at inode [i + 1] and one regular file ["f"]. *)
Definition chain_fs (n : Z) : TskFsInfo :=
  mk_fs 2
    (fun i => if (2 <=? i) && (i <? 2 + n) then
                Some [mk_entry "d" (i + 1) TSK_FS_META_TYPE_DIR;
                      mk_entry "f" 1 TSK_FS_META_TYPE_REG]
              else None)
    (fun _ => None).

(** A helper just constructed, with nothing produced yet. *)
Definition fresh (dev : string) : Run :=
  {| helper := DeviceHelper_new dev; results := []; trace := [] |}.

(** The same with the counter at [s]. *)
Definition at_counter (dev : string) (s : Z) : Run :=
  with_helper (set_stack s) (fresh dev).

(** A wide, shallow tree: the root holds [n] directories, each holding one
    regular file. *)
Definition wide_fs (n : Z) : TskFsInfo :=
  mk_fs 2
    (fun i => if i =? 2 then
                Some ((fun k => mk_entry ("d" +:+ pretty k) (10 + k)
                                  TSK_FS_META_TYPE_DIR) <$> seqZ 0 n)
              else if (10 <=? i) && (i <? 10 + n) then
                Some [mk_entry "f" 1 TSK_FS_META_TYPE_REG]
              else None)
    (fun _ => None).

(** A directory that lists itself under the empty name. *)
Definition self_fs : TskFsInfo :=
  mk_fs 2
    (fun i => if i =? 2 then Some [mk_entry "" 2 TSK_FS_META_TYPE_DIR]
              else None)
    (fun _ => None).

(** Two sibling entries named ["x"], at inodes 5 and 7: both resolve to the
    path ["/x"]. *)
Definition sibling_fs : TskFsInfo :=
  mk_fs 2
    (fun i => if i =? 2 then
                Some [mk_entry "x" 7 TSK_FS_META_TYPE_DIR;
                      mk_entry "x" 5 TSK_FS_META_TYPE_DIR]
              else if i =? 5 then Some [mk_entry "a" 20 TSK_FS_META_TYPE_REG]
              else if i =? 7 then Some [mk_entry "b" 21 TSK_FS_META_TYPE_REG]
              else None)
    (fun _ => None).

(** A directory whose enumeration order is neither the alphabetical nor
    the inode order: file ["b"], directory ["z"] (inode 9), file ["a"],
    directory ["y"] (inode 4). *)
Definition order_fs : TskFsInfo :=
  mk_fs 2
    (fun i => if i =? 2 then
                Some [mk_entry "b" 30 TSK_FS_META_TYPE_REG;
                      mk_entry "z" 9 TSK_FS_META_TYPE_DIR;
                      mk_entry "a" 31 TSK_FS_META_TYPE_REG;
                      mk_entry "y" 4 TSK_FS_META_TYPE_DIR]
              else if i =? 4 then Some [mk_entry "f" 32 TSK_FS_META_TYPE_REG]
              else if i =? 9 then Some [mk_entry "g" 33 TSK_FS_META_TYPE_REG]
              else None)
    (fun _ => None).

(** The filesystem of partition 4.  Inode 0 and inode 13 open to files
    whose metadata names a parent; inode 12 opens to a file whose metadata
    has no parent name; inode 14 opens to a file without metadata. *)
Definition data_fs : TskFsInfo :=
  {| getFsType := 8; getFsFlags := 0; getOffset := 2097152;
     getFsBlockSize := 4096; getBlockCount := 25600; getINumCount := 6400;
     getRootINum := 2;
     dir_open := fun i =>
       if i =? 2 then Some [mk_entry "notes.txt" 12 TSK_FS_META_TYPE_REG]
       else None;
     file_open_path := fun p =>
       if decide (p = "/notes.txt") then
         mk_entry "notes.txt" 12 TSK_FS_META_TYPE_REG
       else None;
     file_open_meta := fun i =>
       if i =? 0 then
         Some {| getMeta := Some (mk_meta 0 TSK_FS_META_TYPE_VIRT ["$MFT"]);
                 getName := None; getFsInfo := Some 4096 |}
       else if i =? 12 then
         Some {| getMeta := Some (mk_meta 12 TSK_FS_META_TYPE_REG []);
                 getName := None; getFsInfo := Some 4096 |}
       else if i =? 13 then
         Some {| getMeta := Some (mk_meta 13 TSK_FS_META_TYPE_REG ["docs"]);
                 getName := None; getFsInfo := Some 4096 |}
       else if i =? 14 then
         Some {| getMeta := None; getName := None; getFsInfo := Some 4096 |}
       else None |}.

(** A partition that is not null. *)
Definition mk_part (addr : Z) (desc : string) (flags start len : Z)
    (fs : option TskFsInfo) : option TskVsPartInfo :=
  Some {| getPartAddr := addr; getDesc := Some desc; getFlags := flags;
          getStart := start; getLen := len; part_fs := fs |}.

(** A disk with 512-byte sectors: the partition table (meta and
    unallocated flags both set), a null slot, an unallocated gap, a
    partition without a recognizable filesystem and one holding
    [data_fs]. *)
Definition sda_volume : TskVsInfo :=
  {| vs_status := 0; getBlockSize := 512;
     vs_parts := [mk_part 0 "Primary Table (#0)" 6 0 1 None;
                  None;
                  mk_part 2 "Unallocated" 2 1 2047 None;
                  mk_part 3 "Linux swap" 1 2048 2048 None;
                  mk_part 4 "Linux (0x83)" 1 4096 204800 (Some data_fs)] |}.

(** A volume system that does not open. *)
Definition no_volume : TskVsInfo :=
  {| vs_status := 1; getBlockSize := 0; vs_parts := [] |}.

(** Only ["/dev/sda"] can be opened. *)
Definition machine : World := fun dev =>
  if decide (dev = "/dev/sda") then
    {| img_status := 0; img_volume := sda_volume |}
  else {| img_status := 1; img_volume := no_volume |}.

(** The machine after the disk was pulled: nothing opens. *)
Definition unplugged : World := fun _ =>
  {| img_status := 1; img_volume := no_volume |}.

(** Names for the filesystem types of the example. *)
Definition type_names (t : Z) : string :=
  if t =? 8 then "ext4" else "unsupported".

(** A partition listing of two devices. *)
Definition sda_query : QueryContext :=
  {| devices := ["/dev/sda"; "/dev/sdb"]; parts := []; paths := [];
     inodes := [] |}.

(** Partition 3 of [sda_volume]. *)
Definition swap_part : TskVsPartInfo :=
  {| getPartAddr := 3; getDesc := Some "Linux swap"; getFlags := 1;
     getStart := 2048; getLen := 2048; part_fs := None |}.

(** Partition 0 of [sda_volume]. *)
Definition table_part : TskVsPartInfo :=
  {| getPartAddr := 0; getDesc := Some "Primary Table (#0)"; getFlags := 6;
     getStart := 0; getLen := 1; part_fs := None |}.

(** A disk with 512-byte sectors whose partition table places a partition
    at sector [2^55]: the byte offset of the partition is [2^64]. *)
Definition far_volume : TskVsInfo :=
  {| vs_status := 0; getBlockSize := 512;
     vs_parts := [mk_part 1 "Far" 1 36028797018963968 8 None] |}.

(** Only ["/dev/far"] can be opened. *)
Definition far_machine : World := fun dev =>
  if decide (dev = "/dev/far") then
    {| img_status := 0; img_volume := far_volume |}
  else {| img_status := 1; img_volume := no_volume |}.

(** A partition listing of ["/dev/far"]. *)
Definition far_query : QueryContext :=
  {| devices := ["/dev/far"]; parts := []; paths := []; inodes := [] |}.

(** A file listing of partition 4 of ["/dev/sda"] by inode. *)
Definition inode_query (inodes : list string) : QueryContext :=
  {| devices := ["/dev/sda"]; parts := ["4"]; paths := [];
     inodes := inodes |}.

(** ** Vocabulary of the further properties *)

(** What [open] attempts on a device: the image, and the volume when the
    image opened. *)
Definition open_events (w : World) (dev : string) : list Event :=
  EvImgOpen dev :: (if img_status (w dev) =? 0 then [EvVsOpen dev] else []).

(** A descent goes into an entry of some directory of [fs] that has
    metadata and a name, is of directory type and is not a dot entry: the
    inode is the address of the entry and the path ends in its name. *)
Definition named_directory (fs : TskFsInfo) (ev : Event) : Prop :=
  match ev with
  | EvDescend p i =>
      exists (j : Z) (dir : TskFsDir) (parent : string) (file : TskFsFile)
             (meta : TskFsMeta) (name : string),
        dir_open fs j = Some dir /\ Some file ∈ dir
        /\ getMeta file = Some meta /\ getName file = Some name
        /\ getType meta = TSK_FS_META_TYPE_DIR
        /\ name <> "." /\ name <> ".."
        /\ getAddr meta = i /\ p = path_append parent name
  | _ => True
  end.

(** The columns that only a file with metadata has. *)
Definition meta_column_names : gset string :=
  {[ "inode"; "uid"; "gid"; "mode"; "size"; "atime"; "mtime"; "ctime";
     "hard_links"; "type" ]}.

(** The events of a walk: directory opens and descents. *)
Definition walk_event (ev : Event) : Prop :=
  match ev with
  | EvDirOpen _ | EvDescend _ _ => True
  | _ => False
  end.

(** A row of a regular file of the partition [partition] of [dev]. *)
Definition regular_row (dev partition : string) (row : Row) : Prop :=
  row !! "device" = Some dev
  /\ row !! "partition" = Some partition
  /\ row !! "type" = Some "regular".

(** The two helpers differ at most in the counter and the visited set. *)
Definition same_device (dh dh' : DeviceHelper) : Prop :=
  image_ dh' = image_ dh /\ volume_ dh' = volume_ dh
  /\ device_path_ dh' = device_path_ dh
  /\ opened_ dh' = opened_ dh /\ opened_result_ dh' = opened_result_ dh.

(** [walked partition r r']: what a walk may do between [r] and [r']. *)
Definition walked (partition : string) (r r' : Run) : Prop :=
  same_device (helper r) (helper r')
  /\ loops_ (helper r) ⊆ loops_ (helper r')
  /\ exists (rows : QueryData) (evs : list Event),
       results r' = results r ++ rows
       /\ trace r' = trace r ++ evs
       /\ Forall (regular_row (device_path_ (helper r)) partition) rows
       /\ Forall walk_event evs.

(** The row of the lookup of [path], if the file opens. *)
Definition path_row (dev address : string) (fs : TskFsInfo) (path : string)
    : option Row :=
  file ← file_open_path fs path;
  Some (file_row dev address file path).

(** The inode address looked up for an inode string. *)
Definition inode_of (inode : string) : Z :=
  wrap64 (safeStrtol inode 10 0).2.

(** The row of the lookup of an inode string, if the file opens: its path
    is the first parent name of the metadata, or empty without metadata. *)
Definition inode_row (dev address : string) (fs : TskFsInfo) (inode : string)
    : option Row :=
  file ← file_open_meta fs (inode_of inode);
  Some (file_row dev address file
          (match getMeta file with
           | Some meta => default EmptyString (getName2 meta 0)
           | None => EmptyString
           end)).

(** Every file of [fs] that opens by address with metadata has a parent
    name. *)
Definition parent_names (fs : TskFsInfo) : Prop :=
  forall (inum : Z) (file : TskFsFile) (meta : TskFsMeta),
    file_open_meta fs inum = Some file -> getMeta file = Some meta ->
    name2 meta <> [].

(** The state in which a walk is meant to start: counter at zero, nothing
    visited. *)
Definition clean (dh : DeviceHelper) : Prop :=
  stack_ dh = 0 /\ loops_ dh = ∅.

(** The row belongs to one of the devices and to the partition asked
    for. *)
Definition requested_row (context : QueryContext) (row : Row) : Prop :=
  (exists dev, dev ∈ devices context /\ row !! "device" = Some dev)
  /\ row !! "partition" = head (parts context).

(** A filesystem open is on the partition asked for. *)
Definition requested_event (context : QueryContext) (ev : Event) : Prop :=
  match ev with
  | EvFsOpen addr => head (parts context) = Some (to_string addr)
  | _ => True
  end.

(** The helper is the one of [dev], and the rows and events so far satisfy
    [PR] and [PE]. *)
Definition kept (PR : Row -> Prop) (PE : Event -> Prop) (dev : string)
    (r : Run) : Prop :=
  device_path_ (helper r) = dev
  /\ Forall PR (results r) /\ Forall PE (trace r).

(** The [device], [partition] and [label] columns of a row. *)
Definition identity_columns (row : Row)
    : option string * option string * option string :=
  (row !! "device", row !! "partition", row !! "label").

(** [data_fs] without the file of inode 12: every file that opens by
    address with metadata has a parent name. *)
Definition named_fs : TskFsInfo :=
  {| getFsType := 8; getFsFlags := 0; getOffset := 2097152;
     getFsBlockSize := 4096; getBlockCount := 25600; getINumCount := 6400;
     getRootINum := 2;
     dir_open := dir_open data_fs;
     file_open_path := file_open_path data_fs;
     file_open_meta := fun i =>
       if i =? 12 then None else file_open_meta data_fs i |}.

(** * Properties *)

(** ** Sets, strings and integers *)

Lemma elem_of_set_insert (x y : string) (s : gset string) :
  y ∈ set_insert x s ↔ y = x ∨ y ∈ s.
Proof.
  destruct s as [m].
  unfold set_insert, elem_of, gset_elem_of, mapset_elem_of. simpl.
  destruct (decide (x = y)) as [->|Hne].
  - rewrite lookup_insert_eq. split; auto.
  - rewrite lookup_insert_ne by done. split; [auto|].
    intros [->|H]; [done|exact H].
Qed.


Lemma string_length_append (s1 s2 : string) :
  String.length (s1 +:+ s2) = (String.length s1 + String.length s2)%nat.
Proof. induction s1 as [|c s1 IH]; simpl; [done | by rewrite IH]. Qed.

(** Appending a name that is not empty gives a longer path. *)
Lemma path_append_longer (p name : string) :
  name ≠ EmptyString ->
  (String.length p < String.length (path_append p name))%nat.
Proof.
  intros Hne. unfold path_append.
  destruct name as [|c name]; [done|].
  destruct (is_sep (first_char (String c name))).
  { rewrite string_length_append. simpl. lia. }
  destruct p as [|d p]; [simpl; lia|].
  destruct (is_sep (last_char (String d p)));
    rewrite !string_length_append; simpl; lia.
Qed.

Lemma wrap64_small (x : Z) : 0 <= x < two64 -> wrap64 x = x.
Proof. intros H. unfold wrap64. by apply Z.mod_small. Qed.

Lemma wrap64_range (x : Z) : 0 <= wrap64 x < two64.
Proof. unfold wrap64. apply Z.mod_pos_bound. by vm_compute. Qed.

(** ** The pending subdirectories: a [std::map] in ascending key order *)

Lemma map_assign_keys (k : Z) (v : string) (m : inode_map) (x : Z) :
  x ∈ keys (map_assign k v m) ↔ x = k ∨ x ∈ keys m.
Proof.
  unfold keys. induction m as [|[k' v'] m IH]; simpl.
  - set_solver.
  - destruct (Z.ltb_spec k k'); [set_solver|].
    destruct (Z.eqb_spec k k') as [->|]; [set_solver|].
    simpl. rewrite !elem_of_cons, IH. naive_solver.
Qed.

Lemma map_assign_elem (k : Z) (v : string) (m : inode_map) (kv : Z * string) :
  kv ∈ map_assign k v m -> kv = (k, v) ∨ kv ∈ m.
Proof.
  induction m as [|[k' v'] m IH]; simpl.
  - set_solver.
  - destruct (Z.ltb_spec k k'); [set_solver|].
    destruct (Z.eqb_spec k k') as [->|]; [set_solver|].
    rewrite !elem_of_cons. naive_solver.
Qed.

Lemma map_assign_length (k : Z) (v : string) (m : inode_map) :
  (length (map_assign k v m) <= S (length m))%nat.
Proof.
  induction m as [|[k' v'] m IH]; simpl; [lia|].
  destruct (k <? k'); [simpl; lia|].
  destruct (k =? k'); simpl; lia.
Qed.

Lemma map_assign_sorted (k : Z) (v : string) (m : inode_map) :
  StronglySorted Z.lt (keys m) ->
  StronglySorted Z.lt (keys (map_assign k v m)).
Proof.
  unfold keys. induction m as [|[k' v'] m IH]; simpl; intros Hs.
  - repeat constructor.
  - apply StronglySorted_inv in Hs as [Hs Hall].
    destruct (Z.ltb_spec k k').
    + simpl. constructor; [by constructor|].
      constructor; [done|].
      eapply Forall_impl; [exact Hall|]. simpl. lia.
    + destruct (Z.eqb_spec k k') as [->|Hne]; simpl.
      * by constructor.
      * constructor; [by apply IH|].
        apply Forall_forall. intros x Hx.
        apply (map_assign_keys k v m x) in Hx as [->|Hx]; [lia|].
        by eapply Forall_forall in Hall.
Qed.

(** One entry: it touches neither the helper nor the trace. *)
Lemma visit_entry_spec (partition path : string) (m : inode_map) (r : Run)
    (entry : option TskFsFile) :
  visit_entry partition path (m, r) entry =
  (assign_all (option_list (entry_subdir path entry)) m,
   {| helper := helper r;
      results := results r ++
        option_list (entry_row (device_path_ (helper r)) partition path entry);
      trace := trace r |}).
Proof.
  assert (Hr : r = {| helper := helper r; results := results r ++ [];
                      trace := trace r |})
    by (rewrite app_nil_r; by destruct r).
  unfold visit_entry, entry_subdir, entry_row, assign_all.
  destruct entry as [file|]; simpl; [|by f_equal].
  destruct (getMeta file) as [meta|]; simpl; [|by f_equal].
  destruct (getName file) as [name|] eqn:Hname; simpl;
    destruct (getType meta); simpl; try (by f_equal);
    destruct (TSK_FS_ISDOT name); simpl; by f_equal.
Qed.

(** What the loop over a directory does to the pending map and to the
    state: it appends the rows of the regular files in the order of the
    directory. *)
Lemma scan_loop_spec (partition path : string) (dir : TskFsDir)
    (m : inode_map) (r : Run) :
  fold_left (visit_entry partition path) dir (m, r) =
  (assign_all (omap (entry_subdir path) dir) m,
   {| helper := helper r;
      results := results r ++
        omap (entry_row (device_path_ (helper r)) partition path) dir;
      trace := trace r |}).
Proof.
  revert m r. induction dir as [|entry dir IH]; intros m r; simpl.
  { rewrite app_nil_r. by destruct r. }
  rewrite visit_entry_spec, IH. simpl. f_equal.
  - unfold assign_all.
    by destruct (entry_subdir path entry).
  - f_equal. rewrite <- app_assoc. f_equal.
    by destruct (entry_row _ _ _ entry).
Qed.

Lemma scan_dir_spec (partition path : string) (dir : TskFsDir) (r : Run) :
  scan_dir partition path dir r =
  (assign_all (omap (entry_subdir path) dir) [],
   {| helper := helper r;
      results := results r ++
        omap (entry_row (device_path_ (helper r)) partition path) dir;
      trace := trace r |}).
Proof. apply scan_loop_spec. Qed.

Lemma assign_all_keys (kvs : list (Z * string)) (m : inode_map) (x : Z) :
  x ∈ keys (assign_all kvs m) ↔ x ∈ kvs.*1 ∨ x ∈ keys m.
Proof.
  revert m. induction kvs as [|[k v] kvs IH]; intros m; simpl.
  - set_solver.
  - unfold assign_all in *. simpl. rewrite IH, map_assign_keys.
    rewrite elem_of_cons. naive_solver.
Qed.

Lemma assign_all_elem (kvs : list (Z * string)) (m : inode_map)
    (kv : Z * string) :
  kv ∈ assign_all kvs m -> kv ∈ kvs ∨ kv ∈ m.
Proof.
  revert m. induction kvs as [|[k v] kvs IH]; intros m; simpl.
  - by right.
  - intros [H|H]%IH; [set_solver|].
    apply map_assign_elem in H. set_solver.
Qed.

Lemma assign_all_length (kvs : list (Z * string)) (m : inode_map) :
  (length (assign_all kvs m) <= length kvs + length m)%nat.
Proof.
  revert m. induction kvs as [|[k v] kvs IH]; intros m; simpl; [lia|].
  etrans; [apply IH|]. pose proof (map_assign_length k v m). simpl. lia.
Qed.

Lemma assign_all_sorted (kvs : list (Z * string)) (m : inode_map) :
  StronglySorted Z.lt (keys m) ->
  StronglySorted Z.lt (keys (assign_all kvs m)).
Proof.
  revert m. induction kvs as [|[k v] kvs IH]; intros m Hs; simpl; [done|].
  by apply IH, map_assign_sorted.
Qed.

Lemma omap_length_le {A B : Type} (f : A -> option B) (l : list A) :
  (length (omap f l) <= length l)%nat.
Proof.
  induction l as [|x l IH]; csimpl; [lia|]. destruct (f x); csimpl; lia.
Qed.

(** ** The walk, call by call *)

Lemma generateFiles_unfold (fuel : nat) (partition : string) (fs : TskFsInfo)
    (path : string) (inode : Z) (r : Run) :
  generateFiles fuel partition fs path inode r =
  if 1024 <? stack_ (helper r) then Some (with_helper bump r)
  else
    match fuel with
    | O => None
    | S fuel' =>
        let r1 := emit (EvDirOpen (root_or fs inode)) (with_helper bump r) in
        match dir_open fs (root_or fs inode) with
        | None => Some r1
        | Some dir =>
            descend (generateFiles fuel' partition fs)
              (fst (scan_dir partition path dir r1))
              (snd (scan_dir partition path dir r1))
        end
    end.
Proof.
  destruct fuel; simpl; [done|].
  destruct (1024 <? stack_ (helper r)); [done|].
  unfold root_or. destruct (dir_open fs _); [|done].
  by destruct (scan_dir _ _ _ _).
Qed.

Lemma descents_app (e1 e2 : list Event) :
  descents (e1 ++ e2) = descents e1 ++ descents e2.
Proof. apply omap_app. Qed.

Lemma dir_opens_app (e1 e2 : list Event) :
  dir_opens (e1 ++ e2) = dir_opens e1 ++ dir_opens e2.
Proof. apply omap_app. Qed.

Lemma headroom_low (s : Z) : s <= 1024 -> headroom (s + 1) = headroom s - 1.
Proof. unfold headroom. lia. Qed.

Lemma headroom_high (s : Z) : 1024 < s -> headroom s = 0.
Proof. unfold headroom. lia. Qed.

Lemma headroom_mono (s t : Z) : s <= t -> headroom t <= headroom s.
Proof. unfold headroom. lia. Qed.

Lemma ceiling_ge (B s : Z) : 0 <= B -> s <= ceiling B s.
Proof. unfold ceiling, headroom. nia. Qed.

Lemma ceiling_low (B s : Z) :
  s <= 1024 -> ceiling B (s + 1) = ceiling B s + 1 - B.
Proof.
  intros Hs. unfold ceiling. rewrite headroom_low by done.
  rewrite Z.mul_sub_distr_r. lia.
Qed.

Lemma ceiling_high (B s : Z) : 1024 < s -> ceiling B s = s.
Proof. intros Hs. unfold ceiling. rewrite headroom_high by done. lia. Qed.

Section Counter.

Variable B : Z.
Hypothesis B_nonneg : 0 <= B.

Variable recurse : string -> Z -> Run -> option Run.
Variable floor : Z.

(** What the loop needs of the calls it makes: from any state whose
    counter is at least [floor] and can still be incremented, the call
    returns and advances by one. *)
Hypothesis recurse_advances :
  forall (path : string) (inode : Z) (r : Run),
    floor <= stack_ (helper r) ->
    ceiling B (stack_ (helper r)) + 1 < two64 ->
    exists r', recurse path inode r = Some r' /\ advance B 1 1 r r'.

Lemma descend_advances (additional : inode_map) (r : Run) :
  floor <= stack_ (helper r) ->
  ceiling B (stack_ (helper r)) + Z.of_nat (length additional) < two64 ->
  exists r',
    descend recurse additional r = Some r'
    /\ advance B 0 (Z.of_nat (length additional)) r r'.
Proof.
  revert r. induction additional as [|[inode path] rest IH];
    intros r Hfloor Hroom; simpl in *.
  { exists r. split; [done|]. exists []. rewrite app_nil_r. simpl.
    repeat split; lia. }
  destruct (decide (path ∈ loops_ (helper r))).
  { destruct (IH r) as (r' & -> & evs & Htr & Hst & Hdo & Hce); [done|lia|].
    exists r'. split; [done|]. exists evs. repeat split; try done. lia. }
  destruct (recurse_advances path inode (emit (EvDescend path inode) r))
    as (r1 & -> & evs1 & Htr1 & Hst1 & Hdo1 & Hce1); simpl; [done|lia|].
  simpl in *.
  set (r1' := with_helper _ r1).
  destruct (IH r1') as (r' & -> & evs2 & Htr2 & Hst2 & Hdo2 & Hce2);
    subst r1'; simpl in *; [lia|lia|].
  exists r'. split; [done|].
  exists (EvDescend path inode :: evs1 ++ evs2).
  rewrite Htr2, Htr1, <- !app_assoc. simpl.
  change (EvDescend path inode :: evs1 ++ evs2)
    with ([EvDescend path inode] ++ evs1 ++ evs2).
  rewrite !descents_app, !dir_opens_app, !length_app. simpl.
  repeat split; try done; lia.
Qed.

End Counter.

Ltac run_simpl :=
  cbn [helper results trace stack_ loops_ device_path_ with_helper bump
       set_stack set_loops emit push_back fst snd] in *.

Lemma pending_length (fs : TskFsInfo) (B : Z) (partition path : string)
    (i : Z) (dir : TskFsDir) (r : Run) :
  dirs_bounded fs B -> dir_open fs i = Some dir ->
  Z.of_nat (length (fst (scan_dir partition path dir r))) <= B.
Proof.
  intros Hb Hdir. rewrite scan_dir_spec. simpl.
  pose proof (assign_all_length (omap (entry_subdir path) dir) []).
  pose proof (omap_length_le (entry_subdir path) dir).
  specialize (Hb i dir Hdir). simpl in *. lia.
Qed.

(** Every call returns, given a budget of [1025] minus the counter, and
    advances the counter by one plus the number of calls below it. *)
Lemma generateFiles_advances (B : Z) (fs : TskFsInfo) (partition : string) :
  0 <= B -> dirs_bounded fs B ->
  forall (fuel : nat) (path : string) (inode : Z) (r : Run),
    0 <= stack_ (helper r) ->
    ceiling B (stack_ (helper r)) + 1 < two64 ->
    1025 <= Z.of_nat fuel + stack_ (helper r) ->
    exists r',
      generateFiles fuel partition fs path inode r = Some r'
      /\ advance B 1 1 r r'.
Proof.
  intros HB Hb.
  induction fuel as [|fuel IH]; intros path inode r H0 Hroom Hfuel;
    rewrite generateFiles_unfold;
    pose proof (ceiling_ge B (stack_ (helper r)) HB) as Hge;
    assert (Hw : wrap64 (stack_ (helper r) + 1) = stack_ (helper r) + 1)
      by (apply wrap64_small; lia);
    destruct (Z.ltb_spec 1024 (stack_ (helper r))) as [Hhigh|Hlow].
  1,3: exists (with_helper bump r); split; [done|]; exists [];
       rewrite app_nil_r; run_simpl; rewrite Hw; simpl length;
       rewrite (ceiling_high B (stack_ (helper r))),
         (ceiling_high B (stack_ (helper r) + 1)),
         (headroom_high (stack_ (helper r))),
         (headroom_high (stack_ (helper r) + 1)) by lia;
       repeat split; lia.
  { lia. }
  pose proof (ceiling_low B (stack_ (helper r)) Hlow) as Hcl.
  pose proof (headroom_low (stack_ (helper r)) Hlow) as Hhl.
  destruct (dir_open fs (root_or fs inode)) as [dir|] eqn:Hdir; cbv zeta.
  2: { eexists. split; [done|]. exists [EvDirOpen (root_or fs inode)].
       run_simpl. rewrite Hw. simpl length. repeat split; lia. }
  set (r1 := emit (EvDirOpen (root_or fs inode)) (with_helper bump r)).
  pose proof (pending_length fs B partition path _ dir r1 Hb Hdir) as Hlen.
  rewrite scan_dir_spec in Hlen. cbn [fst] in Hlen.
  assert (Hrec : forall (p : string) (i : Z) (r2 : Run),
             stack_ (helper r) + 1 <= stack_ (helper r2) ->
             ceiling B (stack_ (helper r2)) + 1 < two64 ->
             exists r', generateFiles fuel partition fs p i r2 = Some r'
                        /\ advance B 1 1 r2 r')
    by (intros p i r2 Hfl Hrm; apply IH; lia).
  destruct (descend_advances B (generateFiles fuel partition fs)
              (stack_ (helper r) + 1) Hrec
              (fst (scan_dir partition path dir r1))
              (snd (scan_dir partition path dir r1)))
    as (r' & Hrun & evs & Htr & Hst & Hdo & Hce).
  - rewrite scan_dir_spec. subst r1. run_simpl. rewrite Hw. lia.
  - rewrite scan_dir_spec.
    subst r1. run_simpl. rewrite Hw, Hcl. lia.
  - exists r'. split; [done|].
    rewrite scan_dir_spec in Htr, Hst, Hdo, Hce. subst r1. run_simpl.
    rewrite Hw in Hst, Hdo, Hce.
    exists (EvDirOpen (root_or fs inode) :: evs).
    rewrite Htr, <- app_assoc. simpl length.
    repeat split; try done; lia.
Qed.

(** ** The visited set *)

Lemma scan_dir_pending (partition path : string) (dir : TskFsDir) (r : Run) :
  fst (scan_dir partition path dir r) = pending path dir.
Proof. by rewrite scan_dir_spec. Qed.

Lemma pending_longer (fs : TskFsInfo) (path : string) (i : Z)
    (dir : TskFsDir) (kv : Z * string) :
  names_nonempty fs -> dir_open fs i = Some dir -> kv ∈ pending path dir ->
  (String.length path < String.length kv.2)%nat.
Proof.
  intros Hne Hdir Hkv. unfold pending in Hkv.
  apply assign_all_elem in Hkv as [Hkv|Hkv]; [|by apply elem_of_nil in Hkv].
  apply list_elem_of_omap in Hkv as (entry & Hin & Hsub).
  unfold entry_subdir in Hsub.
  destruct entry as [file|]; simpl in Hsub; [|done].
  destruct (getMeta file) as [meta|]; simpl in Hsub; [|done].
  destruct (getName file) as [name|] eqn:Hname; simpl in Hsub; [|done].
  destruct (decide (getType meta = TSK_FS_META_TYPE_DIR)); [|done].
  destruct (TSK_FS_ISDOT name); [done|].
  injection Hsub as <-. simpl. apply path_append_longer.
  intros ->. by eapply Hne.
Qed.

Section Visited.

Variable recurse : string -> Z -> Run -> option Run.
Variable parent : string.

Hypothesis recurse_fresh :
  forall (p : string) (i : Z) (r r' : Run),
    recurse p i r = Some r' -> fresh_descents (String.length p) r r'.

Lemma descend_fresh (additional : inode_map) (r r' : Run) :
  (forall kv, kv ∈ additional ->
     (String.length parent < String.length kv.2)%nat) ->
  descend recurse additional r = Some r' ->
  fresh_descents (String.length parent) r r'
  /\ (forall kv, kv ∈ additional -> kv.2 ∈ loops_ (helper r')).
Proof.
  revert r. induction additional as [|[inode path] rest IH];
    intros r Hlen Hrun; simpl in Hrun.
  { injection Hrun as <-. split; [|by intros kv ?%elem_of_nil].
    exists []. rewrite app_nil_r. simpl.
    split; [done|]. split; [constructor|]. split.
    - intros p. split; [by left|]. by intros [?|?%elem_of_nil].
    - by intros p ?%elem_of_nil. }
  assert (Hrest : forall kv, kv ∈ rest ->
            (String.length parent < String.length kv.2)%nat)
    by (intros kv Hkv; apply Hlen; by right).
  assert (Hpath : (String.length parent < String.length path)%nat)
    by (apply (Hlen (inode, path)); by left).
  destruct (decide (path ∈ loops_ (helper r))) as [Hin|Hnotin].
  { destruct (IH r Hrest Hrun) as [(evs & Htr & Hnd & Hloops & Hnew) Hall].
    split; [by exists evs|].
    intros kv [->|Hkv]%elem_of_cons; [|by apply Hall].
    simpl. apply Hloops. by left. }
  destruct (recurse path inode (emit (EvDescend path inode) r))
    as [r1|] eqn:Hcall; [|done].
  apply recurse_fresh in Hcall as (evs1 & Htr1 & Hnd1 & Hloops1 & Hnew1).
  destruct (IH _ Hrest Hrun) as [(evs2 & Htr2 & Hnd2 & Hloops2 & Hnew2) Hall].
  run_simpl.
  assert (Hloops : forall p, (p ∈ loops_ (helper r')) <->
            (p ∈ loops_ (helper r)) \/
            (p ∈ path :: descents evs1 ++ descents evs2)).
  { intros p. rewrite Hloops2, elem_of_set_insert, Hloops1.
    rewrite elem_of_cons, elem_of_app. tauto. }
  split.
  - exists (EvDescend path inode :: evs1 ++ evs2).
    change (EvDescend path inode :: evs1 ++ evs2)
      with ([EvDescend path inode] ++ evs1 ++ evs2).
    rewrite Htr2, Htr1, <- !app_assoc, !descents_app.
    split; [done|]. simpl. split; [|split; [done|]].
    + constructor.
      * rewrite elem_of_app. intros [H1|H2].
        -- apply Hnew1 in H1 as [_ H1]. lia.
        -- apply Hnew2 in H2 as [H2 _]. apply H2.
           apply elem_of_set_insert. by left.
      * apply NoDup_app. split; [done|]. split; [|done].
        intros p H1 H2. apply Hnew2 in H2 as [H2 _]. apply H2.
        apply elem_of_set_insert. right. apply Hloops1. by right.
    + intros p [->|[H1|H2]%elem_of_app]%elem_of_cons.
      * done.
      * apply Hnew1 in H1 as [H1 H1']. split; [done|lia].
      * apply Hnew2 in H2 as [H2 H2']. split; [|done].
        intros Hp. apply H2. apply elem_of_set_insert. right.
        apply Hloops1. by left.
  - intros kv [->|Hkv]%elem_of_cons; [|by apply Hall].
    simpl. apply Hloops. right. by left.
Qed.

End Visited.

Lemma generateFiles_fresh (fs : TskFsInfo) (partition : string) :
  names_nonempty fs ->
  forall (fuel : nat) (path : string) (inode : Z) (r r' : Run),
    generateFiles fuel partition fs path inode r = Some r' ->
    fresh_descents (String.length path) r r'.
Proof.
  intros Hne. induction fuel as [|fuel IH]; intros path inode r r';
    rewrite generateFiles_unfold;
    destruct (1024 <? stack_ (helper r)); try done.
  1,2: intros [= <-]; exists []; rewrite app_nil_r; simpl;
       (split; [done|]); (split; [constructor|]); split;
       [ intros p; split; [by left|]; by intros [?|?%elem_of_nil]
       | by intros p ?%elem_of_nil ].
  destruct (dir_open fs (root_or fs inode)) as [dir|] eqn:Hdir; cbv zeta.
  2: { intros [= <-]. exists [EvDirOpen (root_or fs inode)]. simpl.
       split; [done|]. split; [constructor|]. split.
       - intros p. split; [by left|]. by intros [?|?%elem_of_nil].
       - by intros p ?%elem_of_nil. }
  intros Hrun.
  apply (descend_fresh _ path IH) in Hrun as [(evs & Htr & Hnd & Hl & Hn) _].
  2: { intros kv Hkv. rewrite scan_dir_pending in Hkv.
       by eapply pending_longer. }
  rewrite scan_dir_spec in Htr, Hl, Hn. run_simpl.
  exists (EvDirOpen (root_or fs inode) :: evs).
  rewrite Htr, <- app_assoc. by simpl.
Qed.

(** After a call that opened its directory, every pending path is in the
    visited set. *)
Lemma generateFiles_visits_pending (fs : TskFsInfo) (partition : string)
    (fuel : nat) (path : string) (inode : Z) (r r' : Run) (dir : TskFsDir) :
  names_nonempty fs ->
  generateFiles fuel partition fs path inode r = Some r' ->
  stack_ (helper r) <= 1024 ->
  dir_open fs (root_or fs inode) = Some dir ->
  forall kv, kv ∈ pending path dir -> kv.2 ∈ loops_ (helper r').
Proof.
  intros Hne Hrun Hlow Hdir. rewrite generateFiles_unfold in Hrun.
  destruct (Z.ltb_spec 1024 (stack_ (helper r))); [lia|].
  destruct fuel as [|fuel]; [done|]. rewrite Hdir in Hrun. cbv zeta in Hrun.
  apply (descend_fresh _ path (generateFiles_fresh fs partition Hne fuel))
    in Hrun as [_ Hall].
  - intros kv Hkv. apply Hall. by rewrite scan_dir_pending.
  - intros kv Hkv. rewrite scan_dir_pending in Hkv. by eapply pending_longer.
Qed.

(** ** C1: the depth of the recursion *)

Lemma chain_fs_bounded (n : Z) : dirs_bounded (chain_fs n) 2.
Proof.
  intros i dir. simpl.
  destruct ((2 <=? i) && (i <? 2 + n)); [|done].
  intros [= <-]. simpl. lia.
Qed.

(** C1, as stated, fails.  On a chain of 2000 nested directories walked by
    a fresh helper, 1025 calls go past the guard and open their directory,
    one inside the other: a budget of 1024 nested calls is not enough, and
    each of the 1025 directories contributes the row of its file.  The
    deepest of them is entered with the counter at 1024, which the call
    increments to 1025, above the ceiling; the same call made alone, from a
    counter at 1024, opens its directory and lists its file instead of
    returning at once. *)
Lemma generateFiles_reaches_depth_1025 :
  generateFiles 1024 "0" (chain_fs 2000) "/" 0 (fresh "/dev/sda") = None
  /\ (fun r => (length (dir_opens (trace r)), length (results r)))
       <$> generateFiles 1025 "0" (chain_fs 2000) "/" 0 (fresh "/dev/sda")
     = Some (1025%nat, 1025%nat)
  /\ 1024 < stack_ (helper (with_helper bump (at_counter "/dev/sda" 1024)))
  /\ (fun r => (dir_opens (trace r), length (results r)))
       <$> generateFiles 1 "0" (chain_fs 2000) "/" 0
             (at_counter "/dev/sda" 1024)
     = Some ([2], 1%nat).
Proof. repeat split; by vm_compute. Qed.

Lemma ceiling_le (B s : Z) :
  0 <= B -> 0 <= s -> ceiling B s <= s + 1025 * B.
Proof. intros HB Hs. unfold ceiling, headroom. nia. Qed.

(** A call returns when it may nest as many calls as the counter leaves
    room for. *)
Lemma generateFiles_returns (B : Z) (fs : TskFsInfo)
    (partition path : string) (inode : Z) (r : Run) (fuel : nat) :
  0 <= B -> dirs_bounded fs B ->
  0 <= stack_ (helper r) -> stack_ (helper r) + 1025 * B + 1 < two64 ->
  1025 <= Z.of_nat fuel + stack_ (helper r) ->
  exists r', generateFiles fuel partition fs path inode r = Some r'.
Proof.
  intros HB Hb H0 Hroom Hfuel.
  destruct (generateFiles_advances B fs partition HB Hb fuel path inode r)
    as (r' & Hrun & _); [done| |done|by exists r'].
  pose proof (ceiling_le B (stack_ (helper r)) HB H0). lia.
Qed.

(** C1, amended.  A call that finds the counter above 1024 before
    incrementing it returns at once: it increments the counter and touches
    nothing else, whatever budget it is given.  A call made with the counter
    at [s] returns as soon as it may nest [1025 - s] calls that go past the
    guard: the walk never has more than 1025 directories open one inside the
    other, however deep the image is.  (The directories have at most [B]
    entries and the counter, a [size_t], is not within [1025 * B + 1] of
    wrapping around.) *)
Theorem generateFiles_depth_bound (B : Z) (fs : TskFsInfo)
    (partition path : string) (inode : Z) (r : Run) :
  0 <= B -> dirs_bounded fs B ->
  0 <= stack_ (helper r) -> stack_ (helper r) + 1025 * B + 1 < two64 ->
  (1024 < stack_ (helper r) ->
   forall fuel : nat,
     generateFiles fuel partition fs path inode r = Some (with_helper bump r))
  /\ (forall fuel : nat,
        1025 <= Z.of_nat fuel + stack_ (helper r) ->
        exists r', generateFiles fuel partition fs path inode r = Some r').
Proof.
  intros HB Hb H0 Hroom. split.
  - intros Hhigh fuel. rewrite generateFiles_unfold.
    by destruct (Z.ltb_spec 1024 (stack_ (helper r))); [|lia].
  - intros fuel Hfuel. by apply (generateFiles_returns B).
Qed.

Lemma generateFiles_depth_bound_witness :
  exists r',
    generateFiles 1025 "0" (chain_fs 2000) "/" 0 (fresh "/dev/sda") = Some r'.
Proof.
  apply (generateFiles_depth_bound 2 (chain_fs 2000) "0" "/" 0
           (fresh "/dev/sda")).
  - lia.
  - apply chain_fs_bounded.
  - simpl. lia.
  - by vm_compute.
  - simpl. lia.
Defined.

(** ** C10: the counter counts calls *)

(** C10.  Every call of the walk increments the counter once and nothing
    decrements it: when a call returns, the counter has grown by one plus
    the number of recursive calls made below it.  The calls that went past
    the guard, each of which opened one directory, number at most the
    headroom [max 0 (1025 - s)] left at the counter [s] the call found, so
    at most 1026 in a whole walk.  (The directories have at most [B] entries
    and the counter is not within [1025 * B + 1] of wrapping around.)  On a
    tree two levels deep whose root holds 1026 directories of one file each,
    1025 directories are opened and 1024 of the 1026 files are listed. *)
Theorem generateFiles_counter_bounds_calls :
  (forall (B : Z) (fs : TskFsInfo) (partition path : string) (inode : Z)
          (r : Run) (fuel : nat),
     0 <= B -> dirs_bounded fs B ->
     0 <= stack_ (helper r) -> stack_ (helper r) + 1025 * B + 1 < two64 ->
     1025 <= Z.of_nat fuel + stack_ (helper r) ->
     exists (r' : Run) (evs : list Event),
       generateFiles fuel partition fs path inode r = Some r'
       /\ trace r' = trace r ++ evs
       /\ stack_ (helper r') =
            stack_ (helper r) + 1 + Z.of_nat (length (descents evs))
       /\ Z.of_nat (length (dir_opens evs)) <= headroom (stack_ (helper r))
       /\ (length (dir_opens evs) <= 1026)%nat)
  /\ (fun r => (length (descents (trace r)), length (dir_opens (trace r)),
                length (results r)))
       <$> generateFiles 2 "0" (wide_fs 1026) "/" 0 (fresh "/dev/sda")
     = Some (1026%nat, 1025%nat, 1024%nat).
Proof.
  split; [|by vm_compute].
  intros B fs partition path inode r fuel HB Hb H0 Hroom Hfuel.
  destruct (generateFiles_advances B fs partition HB Hb fuel path inode r)
    as (r' & Hrun & evs & Htr & Hst & Hdo & _); [done| |done|].
  { pose proof (ceiling_le B (stack_ (helper r)) HB H0). lia. }
  exists r', evs. unfold headroom in *. repeat split; try done; lia.
Qed.

Lemma generateFiles_counter_bounds_calls_witness :
  exists (r' : Run) (evs : list Event),
    generateFiles 1025 "0" (chain_fs 2000) "/" 0 (fresh "/dev/sda") = Some r'
    /\ trace r' = trace (fresh "/dev/sda") ++ evs
    /\ stack_ (helper r') =
         stack_ (helper (fresh "/dev/sda")) + 1
         + Z.of_nat (length (descents evs))
    /\ Z.of_nat (length (dir_opens evs))
         <= headroom (stack_ (helper (fresh "/dev/sda")))
    /\ (length (dir_opens evs) <= 1026)%nat.
Proof.
  apply (proj1 generateFiles_counter_bounds_calls 2 (chain_fs 2000)).
  - lia.
  - apply chain_fs_bounded.
  - simpl. lia.
  - by vm_compute.
  - simpl. lia.
Defined.

(** ** C2: one descent per path *)

(** C2, as stated, fails.  The path of an entry without a name text is the
    path of its directory, which is not in the visited set while that
    directory is being walked: on [self_fs] the walk descends into ["/"] 1025
    times, opening the root directory each time until the guard stops it. *)
Lemma generateFiles_descends_again :
  (fun r => (count_occ string_dec (descents (trace r)) "/",
             length (dir_opens (trace r))))
    <$> generateFiles 1025 "0" self_fs "/" 0 (fresh "/dev/sda")
  = Some (1025%nat, 1025%nat).
Proof. by vm_compute. Qed.

Lemma sibling_fs_bounded : dirs_bounded sibling_fs 2.
Proof.
  intros i dir. simpl.
  repeat (case_match; [intros [= <-]; simpl; lia|]). done.
Qed.

Lemma sibling_fs_names : names_nonempty sibling_fs.
Proof.
  intros i dir file. simpl.
  repeat (case_match;
          [intros [= <-] Hin; set_unfold in Hin;
           unfold mk_entry in Hin; naive_solver|]).
  done.
Qed.

(** C2, amended.  Provided no directory entry carries the empty name, a path
    is descended into at most once per walk: the paths of the recursive calls
    are pairwise different; none was in the visited set when the walk
    started (the check before the call) and all are in it when the walk
    returns (the insert after the call).  In particular a path that several
    pending entries of the start directory resolve to, and that was not
    visited before, is descended into exactly once.  (The directories have at
    most [B] entries and the counter is not within [1025 * B + 1] of wrapping
    around.) *)
Theorem generateFiles_descends_once (B : Z) (fs : TskFsInfo)
    (partition path : string) (inode : Z) (r : Run) (fuel : nat) :
  names_nonempty fs ->
  0 <= B -> dirs_bounded fs B ->
  0 <= stack_ (helper r) -> stack_ (helper r) + 1025 * B + 1 < two64 ->
  1025 <= Z.of_nat fuel + stack_ (helper r) ->
  exists (r' : Run) (evs : list Event),
    generateFiles fuel partition fs path inode r = Some r'
    /\ trace r' = trace r ++ evs
    /\ NoDup (descents evs)
    /\ (forall p : string, p ∈ descents evs ->
          (p ∉ loops_ (helper r)) /\ (p ∈ loops_ (helper r')))
    /\ (forall (dir : TskFsDir) (kv : Z * string),
          stack_ (helper r) <= 1024 ->
          dir_open fs (root_or fs inode) = Some dir ->
          kv ∈ pending path dir -> kv.2 ∉ loops_ (helper r) ->
          count_occ string_dec (descents evs) kv.2 = 1%nat).
Proof.
  intros Hne HB Hb H0 Hroom Hfuel.
  destruct (generateFiles_returns B fs partition path inode r fuel
              HB Hb H0 Hroom Hfuel) as [r' Hrun].
  destruct (generateFiles_fresh fs partition Hne fuel path inode r r' Hrun)
    as (evs & Htr & Hnd & Hloops & Hnew).
  exists r', evs. repeat split; try done.
  - by apply Hnew.
  - apply Hloops. by right.
  - intros dir kv Hlow Hdir Hkv Hnotin.
    apply NoDup_ListNoDup in Hnd.
    apply (proj1 (NoDup_count_occ' string_dec (descents evs)) Hnd).
    apply list_elem_of_In.
    pose proof (generateFiles_visits_pending fs partition fuel path inode
                  r r' dir Hne Hrun Hlow Hdir kv Hkv) as Hin.
    apply Hloops in Hin as [Hin|Hin]; done.
Qed.

Lemma generateFiles_descends_once_witness :
  exists (r' : Run) (evs : list Event),
    generateFiles 1025 "0" sibling_fs "/" 0 (fresh "/dev/sda") = Some r'
    /\ trace r' = trace (fresh "/dev/sda") ++ evs
    /\ NoDup (descents evs)
    /\ (forall p : string, p ∈ descents evs ->
          (p ∉ loops_ (helper (fresh "/dev/sda"))) /\ (p ∈ loops_ (helper r')))
    /\ (forall (dir : TskFsDir) (kv : Z * string),
          stack_ (helper (fresh "/dev/sda")) <= 1024 ->
          dir_open sibling_fs (root_or sibling_fs 0) = Some dir ->
          kv ∈ pending "/" dir -> kv.2 ∉ loops_ (helper (fresh "/dev/sda")) ->
          count_occ string_dec (descents evs) kv.2 = 1%nat).
Proof.
  apply (generateFiles_descends_once 2 sibling_fs "0" "/" 0
           (fresh "/dev/sda") 1025).
  - apply sibling_fs_names.
  - lia.
  - apply sibling_fs_bounded.
  - simpl. lia.
  - by vm_compute.
  - simpl. lia.
Defined.

(** The walk of [sibling_fs]: the two entries are pending under inodes 5 and
    7, one descent is made, into inode 5, and the file of inode 7 is not
    listed. *)
Lemma sibling_fs_walk :
  pending "/" [mk_entry "x" 7 TSK_FS_META_TYPE_DIR;
               mk_entry "x" 5 TSK_FS_META_TYPE_DIR]
    = [(5, "/x"); (7, "/x")]
  /\ (fun r => (descents (trace r), dir_opens (trace r),
                (fun row : Row => row !! "path") <$> results r))
       <$> generateFiles 1025 "0" sibling_fs "/" 0 (fresh "/dev/sda")
     = Some (["/x"], [2; 5], [Some "/x/a"]).
Proof. split; by vm_compute. Qed.

(** ** C7: order of the rows and of the descents *)


Lemma pending_sorted (path : string) (dir : TskFsDir) :
  StronglySorted Z.lt (keys (pending path dir)).
Proof. apply assign_all_sorted. constructor. Qed.









(** The walk of [order_fs]: the files of the root come first, as
    enumerated; the descents go to inode 4 and then to inode 9. *)
Lemma order_fs_walk :
  (fun r => (trace r, (fun row : Row => row !! "path") <$> results r))
    <$> generateFiles 2 "0" order_fs "/" 0 (fresh "/dev/sda")
  = Some ([EvDirOpen 2; EvDescend "/y" 4; EvDirOpen 4;
           EvDescend "/z" 9; EvDirOpen 9],
          [Some "/b"; Some "/a"; Some "/y/f"; Some "/z/g"]).
Proof. by vm_compute. Qed.

Lemma order_fs_bounded : dirs_bounded order_fs 4.
Proof.
  intros i dir. simpl.
  repeat (case_match; [intros [= <-]; simpl; lia|]). done.
Qed.


(** ** C9: the open is attempted once *)

Lemma open_marks_opened (w : World) (r : Run) :
  opened_ (helper (open w r).2) = true.
Proof.
  unfold open. destruct (opened_ (helper r)) eqn:Hop; [done|].
  destruct (img_status _ =? 0); simpl; [|done].
  by destruct (vs_status _ =? 0).
Qed.

Lemma open_result_cached (w : World) (r : Run) :
  opened_ (helper r) = false ->
  opened_result_ (helper (open w r).2) = (open w r).1.
Proof.
  intros Hop. unfold open. rewrite Hop.
  destruct (img_status _ =? 0); simpl; [|done].
  by destruct (vs_status _ =? 0).
Qed.

Lemma open_again (w : World) (r : Run) :
  opened_ (helper r) = true -> open w r = (opened_result_ (helper r), r).
Proof. intros Hop. unfold open. by rewrite Hop. Qed.

Lemma open_each_opened (ws : list World) (r : Run) :
  opened_ (helper r) = true ->
  open_each ws r = (replicate (length ws) (opened_result_ (helper r)), r).
Proof.
  intros Hop. induction ws as [|w ws IH]; simpl; [done|].
  by rewrite open_again, IH.
Qed.

(** C9.  The first call of [open] on a helper attempts the image, and the
    volume when the image opened, and its outcome says whether both opened.
    Every later call on that helper, however many and whatever the state of
    the device by then, returns the outcome of the first call and leaves the
    helper and the trace as the first call left them: nothing is opened
    again, whether the first attempt succeeded or failed. *)
Theorem open_attempted_once (w : World) (ws : list World) (r : Run) :
  opened_ (helper r) = false ->
  let dev := device_path_ (helper r) in
  trace (open w r).2 =
    trace r ++ EvImgOpen dev
      :: (if img_status (w dev) =? 0 then [EvVsOpen dev] else [])
  /\ (open w r).1 =
       (img_status (w dev) =? 0) && (vs_status (img_volume (w dev)) =? 0)
  /\ open_each ws (open w r).2 =
       (replicate (length ws) (open w r).1, (open w r).2).
Proof.
  intros Hop dev. split; [|split].
  - unfold open. rewrite Hop. fold dev.
    destruct (img_status (w dev) =? 0); simpl; [|done].
    destruct (vs_status _ =? 0); simpl; by rewrite <- app_assoc.
  - unfold open. rewrite Hop. fold dev.
    destruct (img_status (w dev) =? 0); simpl; [|done].
    by destruct (vs_status _ =? 0).
  - rewrite open_each_opened by apply open_marks_opened.
    by rewrite open_result_cached.
Qed.

Lemma open_attempted_once_witness :
  trace (open machine (fresh "/dev/sda")).2 =
    [EvImgOpen "/dev/sda"; EvVsOpen "/dev/sda"]
  /\ (open machine (fresh "/dev/sda")).1 = true
  /\ open_each [unplugged; machine; unplugged]
       (open machine (fresh "/dev/sda")).2 =
     ([true; true; true], (open machine (fresh "/dev/sda")).2).
Proof.
  apply (open_attempted_once machine [unplugged; machine; unplugged]
           (fresh "/dev/sda")).
  reflexivity.
Defined.

(** ** C8: the filters the file listing requires *)

(** C8.  Without a device, or with a number of partition constraints other
    than one, [genDeviceFile] logs the diagnostic and returns no row; it
    opens nothing and does not fail. *)
Theorem genDeviceFile_requires_filters (fuel : nat) (w : World)
    (context : QueryContext) :
  devices context = [] \/ length (parts context) <> 1%nat ->
  genDeviceFile fuel w context = Ok ([], [EvLog diagnostic]).
Proof.
  intros Hreq. unfold genDeviceFile.
  destruct Hreq as [->|Hparts]; [done|].
  rewrite (bool_decide_eq_false_2 (length (parts context) = 1%nat) Hparts).
  by rewrite orb_true_r.
Qed.

Lemma genDeviceFile_requires_filters_witness :
  genDeviceFile 1025 machine
    {| devices := ["/dev/sda"]; parts := ["3"; "4"]; paths := [];
       inodes := [] |}
  = Ok ([], [EvLog diagnostic]).
Proof.
  apply genDeviceFile_requires_filters. right. simpl. lia.
Defined.

(** ** The partition listing of the example machine *)

(** The listing of the example machine: four rows for ["/dev/sda"], none for
    the null slot, none for ["/dev/sdb"], which does not open. *)
Lemma machine_listing :
  observe ["partition"; "type"; "flags"; "offset"; "blocks"; "inodes"]
    (genDevicePartitions type_names machine sda_query)
  = Ok ([[Some "0"; Some "meta"; Some "6"; Some "0"; Some "1"; Some "-1"];
         [Some "2"; Some "unallocated"; Some "2"; Some "512"; Some "2047";
          Some "-1"];
         [Some "3"; Some "normal"; Some "1"; Some "1048576"; Some "2048";
          Some "-1"];
         [Some "4"; Some "ext4"; Some "0"; Some "2097152"; Some "25600";
          Some "6400"]],
        [EvImgOpen "/dev/sda"; EvVsOpen "/dev/sda"; EvFsOpen 0;
         EvFsOpen 2; EvFsOpen 3; EvFsOpen 4; EvImgOpen "/dev/sdb"]).
Proof. by vm_compute. Qed.

(** ** C3 and C4: the lookup by inode *)

(** An inode string that does not parse is looked up as inode 0. *)
Lemma lookup_inode_unparsed (address : string) (fs : TskFsInfo)
    (inode : string) (r : Run) :
  (safeStrtol inode 10 0).1 = false ->
  lookup_inode address fs inode r = lookup_inode address fs "0" r.
Proof.
  intros Hfail. unfold lookup_inode.
  replace (safeStrtol inode 10 0).2 with 0; [done|].
  unfold safeStrtol in *. destruct (parse_decimal inode) as [n|]; [|done].
  by destruct ((LONG_MIN <=? n) && (n <=? LONG_MAX)).
Qed.

(** Every inode string has a file open attempted for it. *)
Lemma lookup_inode_opens (address : string) (fs : TskFsInfo)
    (inode : string) (r r' : Run) :
  lookup_inode address fs inode r = Ok r' ->
  exists inum, trace r' = trace r ++ [EvFileOpenMeta inum].
Proof.
  unfold lookup_inode. intros Hrun.
  exists (wrap64 (safeStrtol inode 10 0).2).
  destruct (file_open_meta fs _) as [file|]; [|by injection Hrun as <-].
  destruct (getMeta file) as [meta|]; [|by injection Hrun as <-].
  destruct (getName2 meta 0); [by injection Hrun as <-|done].
Qed.

(** C3 does not hold of the code.  The status of [safeStrtol] is discarded:
    for the string ["abc"], which does not parse, the file at inode 0 is
    opened and, as it opens, a row is produced for it, next to the row of
    the valid inode ["13"] of the same request. *)
Theorem genDeviceFile_non_numeric_inode :
  (safeStrtol "abc" 10 0).1 = false
  /\ observe ["inode"; "path"]
       (genDeviceFile 0 machine (inode_query ["abc"; "13"]))
     = Ok ([[Some "0"; Some "$MFT"]; [Some "13"; Some "docs"]],
           [EvImgOpen "/dev/sda"; EvVsOpen "/dev/sda"; EvFsOpen 4;
            EvFileOpenMeta 0; EvFileOpenMeta 13]).
Proof. split; by vm_compute. Qed.

(** A file that opens with metadata whose list of parent names is empty
    makes the lookup dereference a null pointer. *)
Lemma lookup_inode_no_parent_name (address : string) (fs : TskFsInfo)
    (inode : string) (r : Run) (file : TskFsFile) (meta : TskFsMeta) :
  file_open_meta fs (wrap64 (safeStrtol inode 10 0).2) = Some file ->
  getMeta file = Some meta -> name2 meta = [] ->
  lookup_inode address fs inode r = NullDeref.
Proof.
  intros Hfile Hmeta Hnames. unfold lookup_inode, getName2.
  by rewrite Hfile, Hmeta, Hnames.
Qed.

(** C4 does not hold of the code.  The guard is on the metadata, not on the
    parent-name slot: inode 12 opens to a file with metadata and no parent
    name, and the listing dereferences the null pointer that [getName2(0)]
    returns.  With a parent name (inode 13) the path is that name; without
    metadata (inode 14) the path is empty; both produce a row. *)
Theorem genDeviceFile_absent_parent_name :
  genDeviceFile 0 machine (inode_query ["12"]) = NullDeref
  /\ observe ["inode"; "path"]
       (genDeviceFile 0 machine (inode_query ["13"; "14"]))
     = Ok ([[Some "13"; Some "docs"]; [None; Some ""]],
           [EvImgOpen "/dev/sda"; EvVsOpen "/dev/sda"; EvFsOpen 4;
            EvFileOpenMeta 13; EvFileOpenMeta 14]).
Proof. split; by vm_compute. Qed.

(** The two other ways of asking: by path, and the full walk. *)
Lemma machine_file_listing :
  observe ["path"; "filename"; "inode"; "type"; "block_size"]
    (genDeviceFile 0 machine
       {| devices := ["/dev/sda"]; parts := ["4"];
          paths := ["/notes.txt"; "/missing"]; inodes := [] |})
  = Ok ([[Some "/notes.txt"; Some "notes.txt"; Some "12"; Some "regular";
          Some "4096"]],
        [EvImgOpen "/dev/sda"; EvVsOpen "/dev/sda"; EvFsOpen 4;
         EvFileOpenPath "/notes.txt"; EvFileOpenPath "/missing"])
  /\ observe ["path"; "filename"; "inode"; "type"; "block_size"]
       (genDeviceFile 1025 machine
          {| devices := ["/dev/sda"]; parts := ["4"]; paths := [];
             inodes := [] |})
     = Ok ([[Some "/notes.txt"; Some "notes.txt"; Some "12"; Some "regular";
             Some "4096"]],
           [EvImgOpen "/dev/sda"; EvVsOpen "/dev/sda"; EvFsOpen 4;
            EvDirOpen 2]).
Proof. split; by vm_compute. Qed.

(** * Further properties *)

(** ** [generateFile] *)

Lemma meta_columns_dom (meta : TskFsMeta) (r : Row) :
  dom (meta_columns meta r) = meta_column_names ∪ dom r.
Proof.
  unfold meta_columns, meta_column_names.
  destruct (kTSKTypeNames (getType meta));
    rewrite !dom_insert_L; set_solver.
Qed.

(** X1.  [generateFile] appends exactly one row and touches nothing else:
    the rows already there, the helper and the trace stay as they were.  The
    row always has the columns [device], [partition], [path] and [filename];
    it has [block_size] exactly when the filesystem of the file is
    available, and the ten metadata columns exactly when the metadata is.
    Its [path] is the path handed in, and its [type] is the name the table
    gives for the type of the metadata, or ["unknown"] when the table has
    none. *)
Theorem generateFile_row (partition : string) (file : TskFsFile)
    (path : string) (r : Run) :
  exists row : Row,
    results (generateFile partition file path r) = results r ++ [row]
    /\ helper (generateFile partition file path r) = helper r
    /\ trace (generateFile partition file path r) = trace r
    /\ dom row =
         {[ "device"; "partition"; "path"; "filename" ]}
         ∪ (match getFsInfo file with
            | Some _ => {[ "block_size" ]}
            | None => ∅
            end)
         ∪ (match getMeta file with
            | Some _ => meta_column_names
            | None => ∅
            end)
    /\ row !! "device" = Some (device_path_ (helper r))
    /\ row !! "partition" = Some partition
    /\ row !! "path" = Some path
    /\ row !! "type" =
         (fun meta => default "unknown" (kTSKTypeNames (getType meta)))
           <$> getMeta file.
Proof.
  eexists. split; [reflexivity|]. split; [done|]. split; [done|].
  unfold file_row. split.
  - destruct (getFsInfo file), (getMeta file);
      rewrite ?meta_columns_dom, !dom_insert_L, dom_empty_L; set_solver.
  - destruct (getFsInfo file), (getMeta file) as [meta|]; simpl;
      unfold meta_columns; try destruct (kTSKTypeNames (getType meta));
      repeat split; by simplify_map_eq.
Qed.

(** ** The pending subdirectories *)

Lemma map_assign_in (k : Z) (v : string) (m : inode_map) :
  (k, v) ∈ map_assign k v m.
Proof.
  induction m as [|[k' v'] m IH]; simpl; [by left|].
  destruct (k <? k'); [by left|].
  destruct (k =? k'); [by left|]. by right.
Qed.

Lemma strictly_sorted_NoDup (l : list Z) :
  StronglySorted Z.lt l -> NoDup l.
Proof.
  induction 1 as [|x l Hs IH Hall]; constructor; [|done].
  rewrite Forall_forall in Hall. intros Hx. apply Hall in Hx. lia.
Qed.

Lemma NoDup_keys_functional (m : inode_map) (k : Z) (p p' : string) :
  NoDup (keys m) -> (k, p) ∈ m -> (k, p') ∈ m -> p = p'.
Proof.
  unfold keys. induction m as [|[k0 p0] m IH]; simpl; intros Hnd H1 H2.
  { by apply elem_of_nil in H1. }
  apply NoDup_cons in Hnd as [Hk0 Hnd].
  apply elem_of_cons in H1 as [H1|H1];
    apply elem_of_cons in H2 as [H2|H2].
  - congruence.
  - injection H1 as -> ->. exfalso. apply Hk0.
    apply list_elem_of_fmap. by exists (k0, p').
  - injection H2 as -> ->. exfalso. apply Hk0.
    apply list_elem_of_fmap. by exists (k0, p).
  - by apply IH.
Qed.

Lemma pending_snoc (path : string) (dir : TskFsDir)
    (entry : option TskFsFile) :
  pending path (dir ++ [entry]) =
  assign_all (option_list (entry_subdir path entry)) (pending path dir).
Proof.
  unfold pending, assign_all. rewrite omap_app, fold_left_app.
  simpl. by destruct (entry_subdir path entry).
Qed.

Lemma entry_subdir_spec (path : string) (entry : option TskFsFile)
    (k : Z) (p : string) :
  entry_subdir path entry = Some (k, p) <->
  exists (file : TskFsFile) (meta : TskFsMeta) (name : string),
    entry = Some file /\ getMeta file = Some meta
    /\ getName file = Some name
    /\ getType meta = TSK_FS_META_TYPE_DIR
    /\ name <> "." /\ name <> ".." /\ getAddr meta = k
    /\ p = path_append path name.
Proof.
  unfold entry_subdir, TSK_FS_ISDOT. split.
  - destruct entry as [file|]; simpl; [|done].
    destruct (getMeta file) as [meta|] eqn:Hm; simpl; [|done].
    destruct (getName file) as [name|] eqn:Hn; simpl; [|done].
    repeat case_decide; try done.
    intros [= <- <-]. by exists file, meta, name.
  - intros (file & meta & name & -> & Hm & Hn & Ht & Hd1 & Hd2 & <- & ->).
    simpl. rewrite Hm. simpl. rewrite Hn. simpl.
    by repeat case_decide.
Qed.

Lemma pending_elem (path : string) (dir : TskFsDir) (k : Z) (p : string) :
  (k, p) ∈ pending path dir ->
  exists (file : TskFsFile) (meta : TskFsMeta) (name : string),
    Some file ∈ dir /\ getMeta file = Some meta
    /\ getName file = Some name
    /\ getType meta = TSK_FS_META_TYPE_DIR
    /\ name <> "." /\ name <> ".." /\ getAddr meta = k
    /\ p = path_append path name.
Proof.
  intros Hkp. unfold pending in Hkp.
  apply assign_all_elem in Hkp as [Hkp|Hkp]; [|by apply elem_of_nil in Hkp].
  apply list_elem_of_omap in Hkp as (entry & Hin & Hentry).
  apply entry_subdir_spec in Hentry
    as (file & meta & name & -> & Hm & Hn & Ht & Hd1 & Hd2 & Hk & ->).
  by exists file, meta, name.
Qed.

Lemma pending_keys (path : string) (dir : TskFsDir) (k : Z) :
  k ∈ keys (pending path dir) <->
  exists (file : TskFsFile) (meta : TskFsMeta) (name : string),
    Some file ∈ dir /\ getMeta file = Some meta /\ getName file = Some name
    /\ getType meta = TSK_FS_META_TYPE_DIR
    /\ name <> "." /\ name <> ".." /\ getAddr meta = k.
Proof.
  unfold pending. rewrite assign_all_keys. split.
  - intros [Hk|Hk]; [|by apply elem_of_nil in Hk].
    apply list_elem_of_fmap in Hk as ([k' p] & -> & Hkp).
    apply list_elem_of_omap in Hkp as (entry & Hin & Hentry).
    apply entry_subdir_spec in Hentry
      as (file & meta & name & -> & Hm & Hn & Ht & Hd1 & Hd2 & Hk & _).
    by exists file, meta, name.
  - intros (file & meta & name & Hin & Hm & Hn & Ht & Hd1 & Hd2 & Hk).
    left. apply list_elem_of_fmap. exists (k, path_append path name).
    split; [done|]. apply list_elem_of_omap. exists (Some file).
    split; [done|]. apply entry_subdir_spec. by exists file, meta, name.
Qed.

(** The events of the loop over the pending entries: the descents into
    them and the events of the calls. *)
Lemma descend_events (PE : Event -> Prop)
    (recurse : string -> Z -> Run -> option Run)
    (additional : inode_map) (r r' : Run) :
  (forall kv, kv ∈ additional -> PE (EvDescend kv.2 kv.1)) ->
  (forall p i r1 r2, recurse p i r1 = Some r2 ->
     exists evs, trace r2 = trace r1 ++ evs /\ Forall PE evs) ->
  descend recurse additional r = Some r' ->
  exists evs : list Event, trace r' = trace r ++ evs /\ Forall PE evs.
Proof.
  intros Hadd Hrec. revert r.
  induction additional as [|[inode path] rest IH]; intros r Hrun;
    simpl in Hrun.
  { injection Hrun as <-. exists []. by rewrite app_nil_r. }
  assert (Hrest : forall kv, kv ∈ rest -> PE (EvDescend kv.2 kv.1))
    by (intros kv Hkv; apply Hadd; by right).
  destruct (decide (path ∈ loops_ (helper r))); [by apply IH|].
  destruct (recurse path inode (emit (EvDescend path inode) r))
    as [r1|] eqn:Hcall; [|done].
  destruct (Hrec _ _ _ _ Hcall) as (evs1 & Htr1 & Hall1).
  destruct (IH Hrest _ Hrun) as (evs & Htr & Hall). run_simpl.
  exists (EvDescend path inode :: evs1 ++ evs). split.
  - rewrite Htr, Htr1. by rewrite <- !app_assoc.
  - constructor; [apply (Hadd (inode, path)); by left|].
    by apply Forall_app.
Qed.

Lemma generateFiles_named_directories (fs : TskFsInfo) (partition : string)
    (fuel : nat) (path : string) (inode : Z) (r r' : Run) :
  generateFiles fuel partition fs path inode r = Some r' ->
  exists evs : list Event,
    trace r' = trace r ++ evs /\ Forall (named_directory fs) evs.
Proof.
  revert path inode r r'. induction fuel as [|fuel IH];
    intros path inode r r'; rewrite generateFiles_unfold;
    destruct (1024 <? stack_ (helper r)); try done.
  1,2: intros [= <-]; exists []; by rewrite app_nil_r.
  destruct (dir_open fs (root_or fs inode)) as [dir|] eqn:Hdir; cbv zeta.
  2: { intros [= <-]. exists [EvDirOpen (root_or fs inode)].
       split; [done|]. by repeat constructor. }
  intros Hrun.
  apply (descend_events (named_directory fs)) in Hrun
    as (evs & Htr & Hall); [| |exact IH].
  - rewrite scan_dir_spec in Htr. run_simpl.
    exists (EvDirOpen (root_or fs inode) :: evs). split.
    + by rewrite Htr, <- app_assoc.
    + by constructor.
  - intros [k p] Hkp. rewrite scan_dir_pending in Hkp.
    apply pending_elem in Hkp
      as (file & meta & name & Hin & Hm & Hn & Ht & Hd1 & Hd2 & Hk & Hp).
    simpl. by exists (root_or fs inode), dir, path, file, meta, name.
Qed.

(** X2.  What gets into [additional], and what a walk descends into.  The
    loop over a directory leaves an inode pending exactly when the directory
    has an entry for it that has metadata and a name, is a directory and is
    not named ["."] or [".."]; the path kept for it is the path of the walked
    directory joined with the name of such an entry.  Every descent of a
    walk, at any depth, goes into such an entry of a directory of the
    filesystem: entries without metadata or without a name, entries that
    are not directories and the two dot entries are never descended
    into. *)
Theorem generateFiles_descends_into_named_directories :
  (forall (partition path : string) (dir : TskFsDir) (r : Run) (k : Z),
     (k ∈ keys (scan_dir partition path dir r).1 <->
      exists (file : TskFsFile) (meta : TskFsMeta) (name : string),
        Some file ∈ dir /\ getMeta file = Some meta
        /\ getName file = Some name
        /\ getType meta = TSK_FS_META_TYPE_DIR
        /\ name <> "." /\ name <> ".." /\ getAddr meta = k)
     /\ (forall p : string, (k, p) ∈ (scan_dir partition path dir r).1 ->
         exists (file : TskFsFile) (meta : TskFsMeta) (name : string),
           Some file ∈ dir /\ getMeta file = Some meta
           /\ getName file = Some name
           /\ getType meta = TSK_FS_META_TYPE_DIR
           /\ name <> "." /\ name <> ".." /\ getAddr meta = k
           /\ p = path_append path name))
  /\ (forall (fs : TskFsInfo) (partition : string) (fuel : nat)
        (path : string) (inode : Z) (r r' : Run),
        generateFiles fuel partition fs path inode r = Some r' ->
        exists evs : list Event,
          trace r' = trace r ++ evs /\ Forall (named_directory fs) evs).
Proof.
  split.
  - intros partition path dir r k. rewrite scan_dir_pending.
    split; [apply pending_keys|apply pending_elem].
  - apply generateFiles_named_directories.
Qed.

Lemma generateFiles_descends_into_named_directories_witness :
  (4 ∈ keys (scan_dir "0" "/"
               [mk_entry "." 2 TSK_FS_META_TYPE_DIR;
                mk_entry "y" 4 TSK_FS_META_TYPE_DIR;
                mk_entry "f" 9 TSK_FS_META_TYPE_REG] (fresh "/dev/sda")).1)
  /\ exists (r' : Run) (evs : list Event),
       generateFiles 1025 "0" order_fs "/" 0 (fresh "/dev/sda") = Some r'
       /\ trace r' = trace (fresh "/dev/sda") ++ evs
       /\ Forall (named_directory order_fs) evs.
Proof.
  split.
  - apply (proj1 generateFiles_descends_into_named_directories).
    eexists _, (mk_meta 4 TSK_FS_META_TYPE_DIR []), "y".
    split; [apply list_elem_of_lookup_2 with 1%nat; reflexivity|].
    repeat split; done.
  - destruct (generateFiles_returns 4 order_fs "0" "/" 0 (fresh "/dev/sda")
                1025) as [r' Hrun].
    + lia.
    + apply order_fs_bounded.
    + simpl. lia.
    + by vm_compute.
    + simpl. lia.
    + destruct (proj2 generateFiles_descends_into_named_directories
                  order_fs "0" 1025%nat "/" 0 (fresh "/dev/sda") r' Hrun)
        as (evs & Htr & Hall).
      exists r', evs. split; [exact Hrun|]. split; [exact Htr|exact Hall].
Defined.

Lemma map_assign_other (k k' : Z) (p v : string) (m : inode_map) :
  (k, p) ∈ m -> k <> k' -> (k, p) ∈ map_assign k' v m.
Proof.
  intros Hin Hne. induction m as [|[k0 v0] m IH]; simpl.
  { by apply elem_of_nil in Hin. }
  destruct (k' <? k0); [by right|].
  destruct (Z.eqb_spec k' k0) as [->|Hne0].
  - apply elem_of_cons in Hin as [[= ? ?]|Hin]; [done|by right].
  - apply elem_of_cons in Hin as [<-|Hin]; [by left|].
    right. by apply IH.
Qed.

Lemma assign_all_other (kvs : list (Z * string)) (m : inode_map)
    (k : Z) (p : string) :
  (k, p) ∈ m -> k ∉ kvs.*1 -> (k, p) ∈ assign_all kvs m.
Proof.
  revert m. induction kvs as [|[k' v] kvs IH]; intros m Hin Hk; [done|].
  simpl in Hk. apply not_elem_of_cons in Hk as [Hne Hk].
  unfold assign_all in *. simpl. apply IH; [|done].
  by apply map_assign_other.
Qed.

(** X3.  [additional] holds one path per inode.  The map that the loop over
    a directory leaves behind has no inode twice; and for an entry of the
    directory that can be descended into, wherever it stands in the
    enumeration, the path kept for its inode is the path of that entry as
    soon as no later entry that can be descended into has the same inode:
    entries that share an inode, such as hard links to one directory,
    collapse into a single pending descent under the name enumerated
    last. *)
Theorem scan_dir_one_path_per_inode (partition path : string) (r : Run)
    (earlier later : TskFsDir) (file : TskFsFile) (meta : TskFsMeta)
    (name : string) :
  getMeta file = Some meta -> getName file = Some name ->
  getType meta = TSK_FS_META_TYPE_DIR -> name <> "." -> name <> ".." ->
  (forall (file' : TskFsFile) (meta' : TskFsMeta) (name' : string),
     Some file' ∈ later -> getMeta file' = Some meta' ->
     getName file' = Some name' ->
     getType meta' = TSK_FS_META_TYPE_DIR -> name' <> "." -> name' <> ".." ->
     getAddr meta' <> getAddr meta) ->
  let additional :=
    (scan_dir partition path (earlier ++ Some file :: later) r).1 in
  NoDup (keys additional)
  /\ (forall p : string,
        (getAddr meta, p) ∈ additional <-> p = path_append path name).
Proof.
  intros Hm Hn Ht Hd1 Hd2 Hlater additional. subst additional.
  rewrite scan_dir_pending.
  assert (Hnd : NoDup (keys (pending path (earlier ++ Some file :: later))))
    by (apply strictly_sorted_NoDup, pending_sorted).
  assert (Hin : (getAddr meta, path_append path name)
                  ∈ pending path (earlier ++ Some file :: later)).
  { unfold pending, assign_all. rewrite omap_app, fold_left_app.
    assert (Hentry : entry_subdir path (Some file) =
                     Some (getAddr meta, path_append path name))
      by (apply entry_subdir_spec; by exists file, meta, name).
    cbn [omap list_omap]. rewrite Hentry. cbn [fold_left fst snd].
    apply assign_all_other.
    - apply map_assign_in.
    - intros Hk. apply list_elem_of_fmap in Hk as ([k' p'] & Hk & Hkp).
      simpl in Hk. subst k'.
      apply list_elem_of_omap in Hkp as (entry & Hentry' & Hsub).
      apply entry_subdir_spec in Hsub
        as (file' & meta' & name' & -> & Hm' & Hn' & Ht' & Hd1' & Hd2'
            & Hk' & _).
      by eapply Hlater. }
  split; [done|]. intros p. split.
  - intros Hp. by eapply NoDup_keys_functional.
  - by intros ->.
Qed.

Lemma scan_dir_one_path_per_inode_witness :
  let additional :=
    (scan_dir "0" "/"
       ([mk_entry "old" 5 TSK_FS_META_TYPE_DIR]
        ++ Some {| getMeta := Some (mk_meta 5 TSK_FS_META_TYPE_DIR []);
                   getName := Some "new"; getFsInfo := Some 4096 |}
        :: [mk_entry "x" 7 TSK_FS_META_TYPE_DIR;
            mk_entry "f" 5 TSK_FS_META_TYPE_REG;
            mk_entry ".." 5 TSK_FS_META_TYPE_DIR])
       (fresh "/dev/sda")).1 in
  NoDup (keys additional)
  /\ (forall p : string, (5, p) ∈ additional <-> p = path_append "/" "new").
Proof.
  apply (scan_dir_one_path_per_inode "0" "/" (fresh "/dev/sda")
           [mk_entry "old" 5 TSK_FS_META_TYPE_DIR]
           [mk_entry "x" 7 TSK_FS_META_TYPE_DIR;
            mk_entry "f" 5 TSK_FS_META_TYPE_REG;
            mk_entry ".." 5 TSK_FS_META_TYPE_DIR]
           {| getMeta := Some (mk_meta 5 TSK_FS_META_TYPE_DIR []);
              getName := Some "new"; getFsInfo := Some 4096 |}
           (mk_meta 5 TSK_FS_META_TYPE_DIR []) "new");
    try done.
  intros file' meta' name' Hin Hm Hn Ht Hd1 Hd2.
  apply elem_of_cons in Hin as [[= ->]|Hin];
    [injection Hm as <-; simpl; lia|].
  apply elem_of_cons in Hin as [[= ->]|Hin];
    [injection Hm as <-; discriminate Ht|].
  apply elem_of_cons in Hin as [[= ->]|Hin];
    [injection Hn as <-; done|].
  by apply elem_of_nil in Hin.
Defined.

(** ** What a walk does and does not do *)

Lemma same_device_refl (dh : DeviceHelper) : same_device dh dh.
Proof. by repeat split. Qed.

Lemma walked_trans (partition : string) (r1 r2 r3 : Run) :
  walked partition r1 r2 -> walked partition r2 r3 -> walked partition r1 r3.
Proof.
  intros [(Hi1 & Hv1 & Hd1 & Ho1 & Hr1) [Hl1 (rows1 & evs1 & Hres1 & Htr1 & Hrows1 & Hevs1)]]
         [(Hi2 & Hv2 & Hd2 & Ho2 & Hr2) [Hl2 (rows2 & evs2 & Hres2 & Htr2 & Hrows2 & Hevs2)]].
  split; [repeat split; congruence|]. split; [set_solver|].
  exists (rows1 ++ rows2), (evs1 ++ evs2).
  rewrite Hres2, Hres1, Htr2, Htr1, <- !app_assoc.
  repeat split; try done; apply Forall_app; split; try done.
  by rewrite <- Hd1.
Qed.

Lemma walked_quiet (partition : string) (r r' : Run) :
  same_device (helper r) (helper r') ->
  loops_ (helper r) ⊆ loops_ (helper r') ->
  results r' = results r -> trace r' = trace r ->
  walked partition r r'.
Proof.
  intros Hsame Hloops Hres Htr. split; [done|]. split; [done|].
  exists [], []. rewrite !app_nil_r. by repeat split.
Qed.

Lemma walked_emit (partition : string) (ev : Event) (r : Run) :
  walk_event ev -> walked partition r (emit ev r).
Proof.
  intros Hev. split; [apply same_device_refl|]. split; [done|].
  exists [], [ev]. rewrite app_nil_r.
  repeat split; try done. by constructor.
Qed.

Lemma entry_rows_regular (dev partition path : string) (dir : TskFsDir) :
  Forall (regular_row dev partition)
    (omap (entry_row dev partition path) dir).
Proof.
  apply Forall_forall. intros row Hrow.
  apply list_elem_of_omap in Hrow as (entry & _ & Hrow).
  unfold entry_row in Hrow.
  destruct entry as [file|]; simpl in Hrow; [|done].
  destruct (getMeta file) as [meta|] eqn:Hmeta; simpl in Hrow; [|done].
  case_decide as Htype; [|done]. injection Hrow as <-.
  unfold regular_row, file_row. rewrite Hmeta. unfold meta_columns.
  rewrite Htype. simpl.
  destruct (getFsInfo file); repeat split; by simplify_map_eq.
Qed.

Lemma descend_walked (partition : string)
    (recurse : string -> Z -> Run -> option Run)
    (additional : inode_map) (r r' : Run) :
  (forall p i r1 r2, recurse p i r1 = Some r2 -> walked partition r1 r2) ->
  descend recurse additional r = Some r' -> walked partition r r'.
Proof.
  intros Hrec. revert r.
  induction additional as [|[inode path] rest IH]; intros r Hrun;
    simpl in Hrun.
  { injection Hrun as <-.
    by apply walked_quiet; [apply same_device_refl|..]. }
  destruct (decide (path ∈ loops_ (helper r))); [by apply IH|].
  destruct (recurse path inode (emit (EvDescend path inode) r))
    as [r1|] eqn:Hcall; [|done].
  apply Hrec in Hcall. apply IH in Hrun.
  apply (walked_trans _ _ (emit (EvDescend path inode) r));
    [by apply walked_emit|].
  apply (walked_trans _ _ r1); [exact Hcall|].
  refine (walked_trans _ _ _ _ _ Hrun).
  apply walked_quiet; [by repeat split| |done|done].
  simpl. intros x Hx. apply elem_of_set_insert. by right.
Qed.

Lemma generateFiles_walked (fs : TskFsInfo) (partition : string)
    (fuel : nat) (path : string) (inode : Z) (r r' : Run) :
  generateFiles fuel partition fs path inode r = Some r' ->
  walked partition r r'.
Proof.
  revert path inode r r'. induction fuel as [|fuel IH];
    intros path inode r r'; rewrite generateFiles_unfold;
    destruct (1024 <? stack_ (helper r)); try done.
  1,2: intros [= <-]; apply walked_quiet; try done;
       by repeat split.
  assert (Hbump : walked partition r (with_helper bump r))
    by (apply walked_quiet; try done; by repeat split).
  destruct (dir_open fs (root_or fs inode)) as [dir|]; cbv zeta.
  2: { intros [= <-]. apply (walked_trans _ _ _ _ Hbump).
       by apply walked_emit. }
  intros Hrun. apply (descend_walked partition _ _ _ _ IH) in Hrun.
  apply (walked_trans _ _ _ _ Hbump).
  apply (walked_trans _ _
           (emit (EvDirOpen (root_or fs inode)) (with_helper bump r)));
    [by apply walked_emit|].
  refine (walked_trans _ _ _ _ _ Hrun).
  rewrite scan_dir_spec. cbn [snd].
  split; [apply same_device_refl|]. split; [done|].
  exists (omap (entry_row (device_path_ (helper r)) partition path) dir), [].
  rewrite app_nil_r. cbn [results trace helper].
  repeat split; try done. apply entry_rows_regular.
Qed.

(** X4.  A walk lists regular files only, and only appends: the rows that
    were there stay first and unchanged, and every row the walk adds has
    the [type] ["regular"], the device of the helper as [device] and the
    label it was given as [partition].  Directories, links, devices and
    entries without metadata never produce a row. *)
Theorem generateFiles_lists_regular_files (fs : TskFsInfo)
    (partition : string) (fuel : nat) (path : string) (inode : Z)
    (r r' : Run) :
  generateFiles fuel partition fs path inode r = Some r' ->
  exists rows : QueryData,
    results r' = results r ++ rows
    /\ Forall (regular_row (device_path_ (helper r)) partition) rows.
Proof.
  intros Hrun.
  destruct (generateFiles_walked fs partition fuel path inode r r' Hrun)
    as (_ & _ & rows & evs & Hres & _ & Hrows & _).
  by exists rows.
Qed.

(** X5.  A walk opens directories and nothing else: every event it adds to
    the trace is a directory open or a descent (no image, volume,
    filesystem or file is opened and nothing is logged).  It leaves the
    cached outcome of [open], the volume and the device path of the helper
    as they were, and it removes nothing from the visited set. *)
Theorem generateFiles_only_opens_directories (fs : TskFsInfo)
    (partition : string) (fuel : nat) (path : string) (inode : Z)
    (r r' : Run) :
  generateFiles fuel partition fs path inode r = Some r' ->
  (exists evs : list Event,
     trace r' = trace r ++ evs /\ Forall walk_event evs)
  /\ same_device (helper r) (helper r')
  /\ loops_ (helper r) ⊆ loops_ (helper r').
Proof.
  intros Hrun.
  destruct (generateFiles_walked fs partition fuel path inode r r' Hrun)
    as (Hsame & Hloops & rows & evs & _ & Htr & _ & Hevs).
  split; [by exists evs|]. by split.
Qed.

Lemma generateFiles_lists_regular_files_witness :
  exists (r' : Run) (rows : QueryData),
    generateFiles 1025 "0" order_fs "/" 0 (fresh "/dev/sda") = Some r'
    /\ results r' = results (fresh "/dev/sda") ++ rows
    /\ Forall (regular_row (device_path_ (helper (fresh "/dev/sda"))) "0")
         rows.
Proof.
  destruct (generateFiles_returns 4 order_fs "0" "/" 0 (fresh "/dev/sda")
              1025) as [r' Hrun].
  - lia.
  - apply order_fs_bounded.
  - simpl. lia.
  - by vm_compute.
  - simpl. lia.
  - destruct (generateFiles_lists_regular_files order_fs "0" 1025 "/" 0
                (fresh "/dev/sda") r' Hrun) as [rows Hrows].
    by exists r', rows.
Defined.

Lemma generateFiles_only_opens_directories_witness :
  exists r' : Run,
    generateFiles 1025 "0" order_fs "/" 0 (fresh "/dev/sda") = Some r'
    /\ (exists evs : list Event,
          trace r' = trace (fresh "/dev/sda") ++ evs
          /\ Forall walk_event evs)
    /\ same_device (helper (fresh "/dev/sda")) (helper r')
    /\ loops_ (helper (fresh "/dev/sda")) ⊆ loops_ (helper r').
Proof.
  destruct (generateFiles_returns 4 order_fs "0" "/" 0 (fresh "/dev/sda")
              1025) as [r' Hrun].
  - lia.
  - apply order_fs_bounded.
  - simpl. lia.
  - by vm_compute.
  - simpl. lia.
  - exists r'. split; [exact Hrun|].
    exact (generateFiles_only_opens_directories order_fs "0" 1025 "/" 0
             (fresh "/dev/sda") r' Hrun).
Defined.

(** ** The lookups by path and by inode *)

Lemma lookup_paths_spec (address : string) (fs : TskFsInfo)
    (paths : list string) (r : Run) :
  fold_left (lookup_path address fs) paths r =
  {| helper := helper r;
     results := results r
       ++ omap (path_row (device_path_ (helper r)) address fs) paths;
     trace := trace r ++ (EvFileOpenPath <$> paths) |}.
Proof.
  revert r. induction paths as [|path paths IH]; intros r; simpl.
  { rewrite !app_nil_r. by destruct r. }
  rewrite IH. unfold lookup_path, path_row.
  destruct (file_open_path fs path) as [file|]; simpl;
    by rewrite <- !app_assoc.
Qed.

(** X6.  The lookup by path opens each path of the request once, in order,
    and appends one row for each path whose file opens, with the path as it
    was asked for; a path that does not open is skipped and changes
    nothing.  The helper is not touched. *)
Theorem lookup_paths_rows (address : string) (fs : TskFsInfo)
    (paths : list string) (r : Run) :
  fold_left (lookup_path address fs) paths r =
  {| helper := helper r;
     results := results r
       ++ omap (path_row (device_path_ (helper r)) address fs) paths;
     trace := trace r ++ (EvFileOpenPath <$> paths) |}
  /\ Forall (fun row => exists path, path ∈ paths
                                    /\ row !! "path" = Some path)
       (omap (path_row (device_path_ (helper r)) address fs) paths).
Proof.
  split; [apply lookup_paths_spec|].
  apply Forall_forall. intros row Hrow.
  apply list_elem_of_omap in Hrow as (path & Hin & Hrow).
  exists path. split; [done|]. unfold path_row in Hrow.
  destruct (file_open_path fs path) as [file|]; simpl in Hrow; [|done].
  injection Hrow as <-. unfold file_row, meta_columns.
  destruct (getFsInfo file), (getMeta file) as [meta|];
    try destruct (kTSKTypeNames (getType meta)); by simplify_map_eq.
Qed.

(** X7.  On a filesystem where every file that opens by address with
    metadata has a parent name, the lookup by inode does not fail: it opens
    the address of each inode string once, in order, and appends one row for
    each file that opens, whose path is the first parent name, or empty when
    the file has no metadata.  The helper is not touched. *)
Theorem lookup_inodes_rows (address : string) (fs : TskFsInfo)
    (inodes : list string) (r : Run) :
  parent_names fs ->
  lookup_inodes address fs inodes r =
  Ok {| helper := helper r;
        results := results r
          ++ omap (inode_row (device_path_ (helper r)) address fs) inodes;
        trace := trace r ++ (EvFileOpenMeta ∘ inode_of <$> inodes) |}.
Proof.
  intros Hnames. revert r.
  induction inodes as [|inode inodes IH]; intros r; simpl.
  { rewrite !app_nil_r. by destruct r. }
  unfold lookup_inode at 1, inode_row at 1.
  fold (inode_of inode).
  destruct (file_open_meta fs (inode_of inode)) as [file|] eqn:Hfile;
    cbn [mbind result_bind option_bind].
  2: { rewrite IH. simpl. by rewrite <- !app_assoc. }
  destruct (getMeta file) as [meta|] eqn:Hmeta.
  2: { cbn [mbind result_bind]. rewrite IH. simpl.
       by rewrite <- !app_assoc. }
  pose proof (Hnames _ _ _ Hfile Hmeta) as Hne.
  unfold getName2. destruct (name2 meta) as [|name names]; [done|].
  cbn [lookup list_lookup default mbind result_bind].
  rewrite IH. simpl. by rewrite <- !app_assoc.
Qed.

Lemma named_fs_parent_names : parent_names named_fs.
Proof.
  intros inum file meta. simpl.
  repeat (case_match; try done); intros [= <-]; simpl; try done;
    by intros [= <-].
Qed.

Lemma lookup_inodes_rows_witness :
  lookup_inodes "4" named_fs ["13"; "77"; "14"] (fresh "/dev/sda") =
  Ok {| helper := helper (fresh "/dev/sda");
        results := results (fresh "/dev/sda")
          ++ omap (inode_row (device_path_ (helper (fresh "/dev/sda"))) "4"
                     named_fs) ["13"; "77"; "14"];
        trace := trace (fresh "/dev/sda")
          ++ (EvFileOpenMeta ∘ inode_of <$> ["13"; "77"; "14"]) |}.
Proof.
  apply lookup_inodes_rows. apply named_fs_parent_names.
Defined.

(** ** The file listing as a whole *)

Lemma file_row_identity (dev partition : string) (file : TskFsFile)
    (path : string) :
  file_row dev partition file path !! "device" = Some dev
  /\ file_row dev partition file path !! "partition" = Some partition.
Proof.
  unfold file_row, meta_columns.
  destruct (getFsInfo file), (getMeta file) as [meta|];
    try destruct (kTSKTypeNames (getType meta)); split; by simplify_map_eq.
Qed.

Lemma lookup_inode_inv (address : string) (fs : TskFsInfo) (inode : string)
    (r r' : Run) :
  lookup_inode address fs inode r = Ok r' ->
  helper r' = helper r
  /\ trace r' = trace r ++ [EvFileOpenMeta (inode_of inode)]
  /\ (results r' = results r
      \/ exists file path,
           results r' =
           results r ++ [file_row (device_path_ (helper r)) address file path]).
Proof.
  unfold lookup_inode. fold (inode_of inode).
  destruct (file_open_meta fs (inode_of inode)) as [file|].
  2: { intros [= <-]. repeat split; by left. }
  destruct (getMeta file) as [meta|].
  2: { intros [= <-]. repeat split. right. by eexists _, _. }
  destruct (getName2 meta 0) as [name|]; [|done].
  intros [= <-]. repeat split. right. by eexists _, _.
Qed.

Lemma lookup_inodes_helper (address : string) (fs : TskFsInfo)
    (inodes : list string) (r r' : Run) :
  lookup_inodes address fs inodes r = Ok r' -> helper r' = helper r.
Proof.
  revert r. induction inodes as [|inode inodes IH]; intros r; simpl.
  { by intros [= <-]. }
  destruct (lookup_inode address fs inode r) as [r1| |] eqn:Hone; try done.
  cbn [mbind result_bind]. intros Hrest.
  apply lookup_inode_inv in Hone as [Hh _]. apply IH in Hrest. congruence.
Qed.

Section FileListing.

Variable fuel : nat.
Variable context : QueryContext.
Variable PE : Event -> Prop.
Variable requested : string.

Hypothesis one_part : parts context = [requested].
Hypothesis PE_img : forall dev, PE (EvImgOpen dev).
Hypothesis PE_vs : forall dev, PE (EvVsOpen dev).
Hypothesis PE_path : forall path, PE (EvFileOpenPath path).
Hypothesis PE_meta : forall inum, PE (EvFileOpenMeta inum).
Hypothesis PE_fs :
  forall addr, to_string addr = requested -> PE (EvFsOpen addr).
Hypothesis PE_walk :
  inodes context = [] -> paths context = [] ->
  forall ev, walk_event ev -> PE ev.

Lemma requested_file_row (dev : string) (file : TskFsFile) (path : string) :
  dev ∈ devices context ->
  requested_row context (file_row dev requested file path).
Proof.
  intros Hdev. destruct (file_row_identity dev requested file path).
  split; [by exists dev|]. by rewrite one_part.
Qed.

Lemma lookup_inodes_kept (dev : string) (fs : TskFsInfo)
    (inodes : list string) (r r' : Run) :
  dev ∈ devices context ->
  kept (requested_row context) PE dev r ->
  lookup_inodes requested fs inodes r = Ok r' ->
  kept (requested_row context) PE dev r'.
Proof.
  intros Hdev. revert r.
  induction inodes as [|inode inodes IH]; intros r Hkept; simpl.
  { by intros [= <-]. }
  destruct (lookup_inode requested fs inode r) as [r1| |] eqn:Hone; try done.
  cbn [mbind result_bind]. apply IH.
  destruct Hkept as (Hd & Hrows & Hevs).
  apply lookup_inode_inv in Hone as (Hh & Htr & Hres).
  split; [congruence|]. split.
  - destruct Hres as [->|(file & path & ->)]; [done|].
    apply Forall_app. split; [done|]. constructor; [|done].
    rewrite Hd. by apply requested_file_row.
  - rewrite Htr. apply Forall_app. split; [done|]. by constructor.
Qed.

Lemma lookup_paths_kept (dev : string) (fs : TskFsInfo)
    (paths : list string) (r : Run) :
  dev ∈ devices context ->
  kept (requested_row context) PE dev r ->
  kept (requested_row context) PE dev
    (fold_left (lookup_path requested fs) paths r).
Proof.
  intros Hdev (Hd & Hrows & Hevs). rewrite lookup_paths_spec.
  split; [done|]. split; simpl.
  - apply Forall_app. split; [done|]. apply Forall_forall. intros row Hrow.
    apply list_elem_of_omap in Hrow as (path & _ & Hrow).
    unfold path_row in Hrow.
    destruct (file_open_path fs path) as [file|]; simpl in Hrow; [|done].
    injection Hrow as <-. rewrite Hd. by apply requested_file_row.
  - apply Forall_app. split; [done|]. apply Forall_fmap, Forall_forall.
    intros path _. apply PE_path.
Qed.

Lemma file_predicate_kept (dev : string) (part : TskVsPartInfo)
    (r r' : Run) :
  dev ∈ devices context ->
  kept (requested_row context) PE dev r ->
  file_predicate fuel context dev part r = Ok r' ->
  kept (requested_row context) PE dev r'.
Proof.
  intros Hdev Hkept. unfold file_predicate. rewrite one_part. simpl.
  case_decide as Haddr; [|by intros [= <-]].
  assert (Hk1 : kept (requested_row context) PE dev
                  (emit (EvFsOpen (getPartAddr part)) r)).
  { destruct Hkept as (Hd & Hrows & Hevs). split; [done|]. split; [done|].
    simpl. apply Forall_app. split; [done|]. constructor; [|done].
    by apply PE_fs. }
  destruct (part_fs part) as [fs|]; [|by intros [= <-]].
  rewrite Haddr.
  assert (Hwalk : forall r1,
            match inodes context, paths context with
            | [], [] =>
                match generateFiles fuel requested fs "/" 0
                        (emit (EvFsOpen (getPartAddr part)) r) with
                | Some r2 => Ok (with_helper resetStack r2)
                | None => OutOfFuel
                end
            | _, _ => Ok (emit (EvFsOpen (getPartAddr part)) r)
            end = Ok r1 ->
            kept (requested_row context) PE dev r1).
  { intros r1.
    destruct (inodes context) eqn:Hi, (paths context) eqn:Hp;
      try (by intros [= <-]).
    destruct (generateFiles _ _ _ _ _ _) as [r2|] eqn:Hrun; [|done].
    intros [= <-]. apply generateFiles_walked in Hrun
      as ((_ & _ & Hdp & _) & _ & rows & evs & Hres & Htr & Hrows & Hevs).
    destruct Hk1 as (Hd1 & Hrows1 & Hevs1).
    split; [simpl; congruence|]. split; simpl.
    - rewrite Hres. apply Forall_app. split; [done|].
      eapply Forall_impl; [exact Hrows|]. intros row (Hdev' & Hpart' & _).
      split; [exists dev; split; [done|]; congruence|].
      by rewrite one_part.
    - rewrite Htr. apply Forall_app. split; [done|].
      eapply Forall_impl; [exact Hevs|]. by apply PE_walk. }
  destruct (match inodes context with [] => _ | _ => _ end)
    as [r1| |] eqn:Hfirst; try done.
  cbn [mbind result_bind]. intros Hrest.
  specialize (Hwalk r1 eq_refl).
  eapply lookup_inodes_kept; [done| |exact Hrest].
  by apply lookup_paths_kept.
Qed.

Lemma for_each_part_kept (dev : string) (ps : list (option TskVsPartInfo))
    (r r' : Run) :
  dev ∈ devices context ->
  kept (requested_row context) PE dev r ->
  for_each_part (file_predicate fuel context dev) ps r = Ok r' ->
  kept (requested_row context) PE dev r'.
Proof.
  intros Hdev. revert r. induction ps as [|[part|] ps IH]; intros r Hkept;
    simpl.
  - by intros [= <-].
  - destruct (file_predicate fuel context dev part r) as [r1| |] eqn:Hone;
      try done.
    cbn [mbind result_bind]. apply IH.
    by eapply file_predicate_kept.
  - by apply IH.
Qed.

Lemma open_kept (w : World) (dev : string) (r : Run) :
  kept (requested_row context) PE dev r ->
  kept (requested_row context) PE dev (open w r).2.
Proof.
  intros (Hd & Hrows & Hevs). unfold open.
  destruct (opened_ (helper r)); [done|].
  destruct (img_status _ =? 0); simpl.
  2: { repeat split; try done. apply Forall_app. split; [done|].
       constructor; [apply PE_img|done]. }
  destruct (vs_status _ =? 0); simpl; (split; [done|]); (split; [done|]);
    repeat (apply Forall_app; split); try done; repeat constructor; auto.
Qed.

Lemma for_each_device_kept (w : World) (devs : list string)
    (out out' : Output) :
  (forall dev, dev ∈ devs -> dev ∈ devices context) ->
  Forall (requested_row context) out.1 -> Forall PE out.2 ->
  for_each_device w (file_predicate fuel context) devs out = Ok out' ->
  Forall (requested_row context) out'.1 /\ Forall PE out'.2.
Proof.
  revert out. induction devs as [|dev devs IH]; intros out Hsub Hrows Hevs;
    simpl.
  { by intros [= <-]. }
  unfold on_device at 1, partitions.
  set (r0 := {| helper := DeviceHelper_new dev; results := out.1;
                trace := out.2 |}).
  assert (Hk0 : kept (requested_row context) PE dev r0) by done.
  apply (open_kept w) in Hk0.
  destruct (open w r0) as [ok r1]. simpl in Hk0.
  assert (Hdev : dev ∈ devices context) by (apply Hsub; by left).
  assert (Hsub' : forall d, d ∈ devs -> d ∈ devices context)
    by (intros d Hd; apply Hsub; by right).
  destruct ok.
  - destruct (for_each_part _ _ r1) as [r2| |] eqn:Hparts; try done.
    cbn [mbind result_bind].
    apply for_each_part_kept in Hparts as (_ & Hrows2 & Hevs2); [|done..].
    by apply IH.
  - cbn [mbind result_bind]. destruct Hk0 as (_ & Hrows1 & Hevs1).
    by apply IH.
Qed.

End FileListing.

(** X8.  Every row of a file listing belongs to a device of the request
    and to the partition asked for, whichever way it was found (walk, path
    or inode); and a filesystem open is attempted only on a partition whose
    address is the one asked for: the partitions that do not match are
    skipped before anything is opened on them. *)
Theorem genDeviceFile_answers_the_request (fuel : nat) (w : World)
    (context : QueryContext) (rows : QueryData) (tr : list Event) :
  genDeviceFile fuel w context = Ok (rows, tr) ->
  Forall (requested_row context) rows
  /\ Forall (requested_event context) tr.
Proof.
  unfold genDeviceFile.
  destruct (bool_decide (devices context = [])
            || negb (bool_decide (length (parts context) = 1%nat)))
    eqn:Hguard.
  { intros [= <- <-]. split; [done|]. by repeat constructor. }
  apply orb_false_elim in Hguard as [_ Hlen].
  apply negb_false_iff, bool_decide_eq_true in Hlen.
  destruct (parts context) as [|requested [|]] eqn:Hparts; try done.
  intros Hrun.
  apply (for_each_device_kept fuel context (requested_event context)
           requested Hparts) in Hrun; try done.
  - unfold requested_event. rewrite Hparts. simpl. by intros addr ->.
  - intros _ _ ev Hev. by destruct ev.
Qed.

(** X9.  A request that names paths or inodes never walks: no directory
    is opened and no descent is made, whatever the image holds. *)
Theorem genDeviceFile_targeted_never_walks (fuel : nat) (w : World)
    (context : QueryContext) (rows : QueryData) (tr : list Event) :
  paths context <> [] \/ inodes context <> [] ->
  genDeviceFile fuel w context = Ok (rows, tr) ->
  Forall (fun ev => ~ walk_event ev) tr.
Proof.
  intros Htarget. unfold genDeviceFile.
  destruct (bool_decide (devices context = [])
            || negb (bool_decide (length (parts context) = 1%nat)))
    eqn:Hguard.
  { intros [= <- <-]. repeat constructor. by intros []. }
  apply orb_false_elim in Hguard as [_ Hlen].
  apply negb_false_iff, bool_decide_eq_true in Hlen.
  destruct (parts context) as [|requested [|]] eqn:Hparts; try done.
  intros Hrun.
  apply (for_each_device_kept fuel context (fun ev => ~ walk_event ev)
           requested Hparts) in Hrun; try done; try (by intros ? []).
  - by destruct Hrun.
  - by intros addr _ [].
  - intros Hi Hp. destruct Htarget; congruence.
Qed.

Lemma observe_Ok (cols : list string) (x : result Output)
    (y : list (list (option string)) * list Event) :
  observe cols x = Ok y -> exists rows tr, x = Ok (rows, tr).
Proof. destruct x as [[rows tr]| |]; [by eauto|done..]. Qed.

Lemma genDeviceFile_answers_the_request_witness :
  exists (rows : QueryData) (tr : list Event),
    genDeviceFile 1025 machine
      {| devices := ["/dev/sda"]; parts := ["4"]; paths := [];
         inodes := [] |} = Ok (rows, tr)
    /\ Forall (requested_row
                 {| devices := ["/dev/sda"]; parts := ["4"]; paths := [];
                    inodes := [] |}) rows
    /\ Forall (requested_event
                 {| devices := ["/dev/sda"]; parts := ["4"]; paths := [];
                    inodes := [] |}) tr.
Proof.
  destruct (observe_Ok ["path"]
              (genDeviceFile 1025 machine
                 {| devices := ["/dev/sda"]; parts := ["4"]; paths := [];
                    inodes := [] |})
              ([[Some "/notes.txt"]],
               [EvImgOpen "/dev/sda"; EvVsOpen "/dev/sda"; EvFsOpen 4;
                EvDirOpen 2]))
    as (rows & tr & Hrun); [by vm_compute|].
  exists rows, tr. split; [exact Hrun|].
  exact (genDeviceFile_answers_the_request _ _ _ rows tr Hrun).
Defined.

Lemma genDeviceFile_targeted_never_walks_witness :
  exists (rows : QueryData) (tr : list Event),
    genDeviceFile 0 machine
      {| devices := ["/dev/sda"]; parts := ["4"];
         paths := ["/notes.txt"; "/missing"]; inodes := ["13"] |}
    = Ok (rows, tr)
    /\ Forall (fun ev => ~ walk_event ev) tr.
Proof.
  destruct (observe_Ok ["path"]
              (genDeviceFile 0 machine
                 {| devices := ["/dev/sda"]; parts := ["4"];
                    paths := ["/notes.txt"; "/missing"];
                    inodes := ["13"] |})
              ([[Some "/notes.txt"]; [Some "docs"]],
               [EvImgOpen "/dev/sda"; EvVsOpen "/dev/sda"; EvFsOpen 4;
                EvFileOpenPath "/notes.txt"; EvFileOpenPath "/missing";
                EvFileOpenMeta 13]))
    as (rows & tr & Hrun); [by vm_compute|].
  exists rows, tr. split; [exact Hrun|].
  refine (genDeviceFile_targeted_never_walks _ _ _ rows tr _ Hrun).
  left. discriminate.
Defined.

Lemma file_predicate_clean (fuel : nat) (context : QueryContext)
    (dev : string) (part : TskVsPartInfo) (r r' : Run) :
  clean (helper r) ->
  file_predicate fuel context dev part r = Ok r' ->
  clean (helper r') /\ same_device (helper r) (helper r').
Proof.
  intros Hclean. unfold file_predicate.
  case_decide; [|intros [= <-]; split; [done|apply same_device_refl]].
  destruct (part_fs part) as [fs|];
    [|intros [= <-]; split; [done|apply same_device_refl]].
  destruct (match inodes context with [] => _ | _ => _ end)
    as [r1| |] eqn:Hfirst; try done.
  cbn [mbind result_bind]. intros Hrest.
  apply lookup_inodes_helper in Hrest.
  rewrite lookup_paths_spec in Hrest. cbn [helper] in Hrest.
  rewrite Hrest. clear Hrest.
  destruct (inodes context), (paths context);
    try (injection Hfirst as <-; split; [done|apply same_device_refl]).
  destruct (generateFiles _ _ _ _ _ _) as [r2|] eqn:Hrun; [|done].
  injection Hfirst as <-.
  apply generateFiles_walked in Hrun as [Hsame _].
  split; [done|]. destruct Hsame as (? & ? & ? & ? & ?).
  by repeat split.
Qed.

(** X10.  The file listing keeps its walks apart.  A helper whose counter
    is at zero and whose visited set is empty is in that state again after
    each partition handed to the lambda of [genDeviceFile], whether the
    partition was skipped, walked (the reset follows the walk) or looked
    up; so each walk of the listing starts with the full depth budget and
    nothing visited.  The cached outcome of [open] and the volume are left
    alone. *)
Theorem file_listing_walks_isolated (fuel : nat) (context : QueryContext)
    (dev : string) (ps : list (option TskVsPartInfo)) (r r' : Run) :
  clean (helper r) ->
  for_each_part (file_predicate fuel context dev) ps r = Ok r' ->
  clean (helper r') /\ same_device (helper r) (helper r').
Proof.
  revert r. induction ps as [|[part|] ps IH]; intros r Hclean; simpl.
  - intros [= <-]. split; [done|apply same_device_refl].
  - destruct (file_predicate fuel context dev part r) as [r1| |] eqn:Hone;
      try done.
    cbn [mbind result_bind]. intros Hrest.
    apply file_predicate_clean in Hone as [Hc1 Hs1]; [|done].
    apply IH in Hrest as [Hc2 Hs2]; [|done].
    split; [done|].
    destruct Hs1 as (? & ? & ? & ? & ?), Hs2 as (? & ? & ? & ? & ?).
    repeat split; congruence.
  - by apply IH.
Qed.

(** ** The devices that do not open, and the order of the listing *)

Lemma on_device_unopenable (w : World)
    (predicate : string -> TskVsPartInfo -> Run -> result Run)
    (dev : string) (out : Output) :
  opens w dev = false ->
  on_device w predicate dev out = Ok (out.1, out.2 ++ open_events w dev).
Proof.
  unfold opens, on_device, partitions, open, open_events. simpl.
  destruct (img_status (w dev) =? 0); simpl; [|done].
  intros ->. simpl. by rewrite <- app_assoc.
Qed.

Lemma for_each_device_unopenable (w : World)
    (predicate : string -> TskVsPartInfo -> Run -> result Run)
    (devs : list string) (out : Output) :
  (forall dev, dev ∈ devs -> opens w dev = false) ->
  for_each_device w predicate devs out =
  Ok (out.1, out.2 ++ (devs ≫= open_events w)).
Proof.
  revert out. induction devs as [|dev devs IH]; intros out Hall; simpl.
  { rewrite app_nil_r. by destruct out. }
  rewrite on_device_unopenable by (apply Hall; by left).
  cbn [mbind result_bind]. rewrite IH by (intros d Hd; apply Hall; by right).
  simpl. by rewrite <- app_assoc.
Qed.

(** X11.  Devices that do not open yield nothing and raise nothing, in
    both tables: when no device of the request opens, the partition listing
    and the file listing return no row; for each device the image open is
    attempted, the volume open only when the image opened, and nothing else
    (no filesystem, directory or file is touched). *)
Theorem unopenable_devices_yield_nothing (typeToName : Z -> string)
    (fuel : nat) (w : World) (context : QueryContext) :
  (forall dev, dev ∈ devices context -> opens w dev = false) ->
  genDevicePartitions typeToName w context =
    Ok ([], devices context ≫= open_events w)
  /\ (devices context <> [] -> length (parts context) = 1%nat ->
      genDeviceFile fuel w context =
        Ok ([], devices context ≫= open_events w)).
Proof.
  intros Hall. split.
  - unfold genDevicePartitions.
    by rewrite for_each_device_unopenable.
  - intros Hdevs Hparts. unfold genDeviceFile.
    rewrite (bool_decide_eq_false_2 _ Hdevs),
      (bool_decide_eq_true_2 _ Hparts). simpl.
    by rewrite for_each_device_unopenable.
Qed.

Lemma unopenable_devices_yield_nothing_witness :
  genDevicePartitions type_names machine
    {| devices := ["/dev/sdb"; "/dev/sdc"]; parts := ["1"]; paths := [];
       inodes := [] |}
  = Ok ([], [EvImgOpen "/dev/sdb"; EvImgOpen "/dev/sdc"])
  /\ genDeviceFile 1025 machine
       {| devices := ["/dev/sdb"; "/dev/sdc"]; parts := ["1"]; paths := [];
          inodes := [] |}
     = Ok ([], [EvImgOpen "/dev/sdb"; EvImgOpen "/dev/sdc"]).
Proof.
  destruct (unopenable_devices_yield_nothing type_names 1025 machine
              {| devices := ["/dev/sdb"; "/dev/sdc"]; parts := ["1"];
                 paths := []; inodes := [] |}) as [Hparts Hfiles].
  - intros dev Hdev. simpl in Hdev.
    apply elem_of_cons in Hdev as [->|Hdev]; [reflexivity|].
    apply elem_of_cons in Hdev as [->|Hdev]; [reflexivity|].
    by apply elem_of_nil in Hdev.
  - split; [exact Hparts|]. apply Hfiles; [discriminate|reflexivity].
Defined.

Lemma partition_row_identity (typeToName : Z -> string) (dev : string)
    (dh : DeviceHelper) (part : TskVsPartInfo) :
  identity_columns (partition_row typeToName dev dh part) =
  (Some dev, Some (to_string (getPartAddr part)), getDesc part).
Proof.
  unfold identity_columns, partition_row, partition_type.
  destruct (part_fs part), (getDesc part), (negb _); cbv zeta;
    try destruct (negb _); by simplify_map_eq.
Qed.

Lemma for_each_part_listing (typeToName : Z -> string) (dev : string)
    (ps : list (option TskVsPartInfo)) (r : Run) :
  for_each_part (partition_predicate typeToName dev) ps r =
  Ok {| helper := helper r;
        results := results r
          ++ (partition_row typeToName dev (helper r) <$> omap id ps);
        trace := trace r ++ (EvFsOpen ∘ getPartAddr <$> omap id ps) |}.
Proof.
  revert r. induction ps as [|[part|] ps IH]; intros r; simpl.
  - rewrite !app_nil_r. by destruct r.
  - rewrite IH. run_simpl. by rewrite <- !app_assoc.
  - apply IH.
Qed.

Lemma on_device_listing (typeToName : Z -> string) (w : World)
    (dev : string) (out : Output) :
  on_device w (partition_predicate typeToName) dev out =
  Ok (out.1 ++ (partition_row typeToName dev (opened_helper w dev)
                  <$> listed_parts w dev),
      out.2 ++ open_events w dev
        ++ (EvFsOpen ∘ getPartAddr <$> listed_parts w dev)).
Proof.
  destruct (opens w dev) eqn:Hopens.
  2: { rewrite on_device_unopenable by done. unfold listed_parts.
       rewrite Hopens. simpl. by rewrite !app_nil_r. }
  unfold listed_parts. rewrite Hopens.
  unfold opens in Hopens. apply andb_true_iff in Hopens as [Himg Hvs].
  unfold on_device, partitions, open, open_events. simpl.
  rewrite Himg, Hvs. simpl. rewrite for_each_part_listing. simpl.
  by rewrite <- !app_assoc.
Qed.

Lemma for_each_device_listing (typeToName : Z -> string) (w : World)
    (devs : list string) (out : Output) :
  for_each_device w (partition_predicate typeToName) devs out =
  Ok (out.1 ++ (devs ≫= fun dev =>
                  partition_row typeToName dev (opened_helper w dev)
                    <$> listed_parts w dev),
      out.2 ++ (devs ≫= fun dev =>
                  open_events w dev
                    ++ (EvFsOpen ∘ getPartAddr <$> listed_parts w dev))).
Proof.
  revert out. induction devs as [|dev devs IH]; intros out.
  { simpl. rewrite !app_nil_r. by destruct out. }
  cbn [for_each_device]. rewrite on_device_listing.
  cbn [mbind result_bind]. rewrite IH.
  cbn [fst snd]. rewrite !bind_cons, <- !app_assoc. reflexivity.
Qed.

Lemma fmap_bind_list {A B C : Type} (f : B -> C) (g : A -> list B)
    (l : list A) :
  f <$> (l ≫= g) = l ≫= (fun x => f <$> g x).
Proof.
  induction l as [|x l IH]; [done|].
  by rewrite !bind_cons, fmap_app, IH.
Qed.

(** X12.  The partition listing never fails and is ordered: it has one row
    for each partition that is not null of each device that opens, the
    devices in the order of the request and the partitions of a device in
    index order.  The row carries the device, the address of the partition
    and its description as [label], which is absent when the partition has
    none.  One filesystem open is attempted per row, in the same order,
    after the opens of the device. *)
Theorem genDevicePartitions_order (typeToName : Z -> string) (w : World)
    (context : QueryContext) :
  exists rows : QueryData,
    genDevicePartitions typeToName w context =
      Ok (rows,
          devices context ≫= fun dev =>
            open_events w dev
              ++ (EvFsOpen ∘ getPartAddr <$> listed_parts w dev))
    /\ identity_columns <$> rows =
       devices context ≫= fun dev =>
         (fun part => (Some dev, Some (to_string (getPartAddr part)),
                       getDesc part)) <$> listed_parts w dev.
Proof.
  eexists. split.
  - unfold genDevicePartitions. by rewrite for_each_device_listing.
  - simpl. rewrite fmap_bind_list.
    apply list_bind_ext; [|done]. intros dev.
    rewrite <- list_fmap_compose. apply list_fmap_ext.
    intros i part _. simpl. apply partition_row_identity.
Qed.

Lemma data_fs_bounded : dirs_bounded data_fs 1.
Proof.
  intros i dir. simpl. case_match; [|done]. intros [= <-]. simpl. lia.
Qed.

Lemma file_predicate_skip (fuel : nat) (context : QueryContext)
    (dev : string) (part : TskVsPartInfo) (r : Run) :
  to_string (getPartAddr part) <> default EmptyString (head (parts context)) ->
  file_predicate fuel context dev part r = Ok r.
Proof. intros Hne. unfold file_predicate. by rewrite decide_False. Qed.

Lemma file_predicate_walk (fuel : nat) (context : QueryContext)
    (dev : string) (part : TskVsPartInfo) (fs : TskFsInfo) (r r2 : Run) :
  to_string (getPartAddr part) = default EmptyString (head (parts context)) ->
  part_fs part = Some fs -> inodes context = [] -> paths context = [] ->
  generateFiles fuel (to_string (getPartAddr part)) fs "/" 0
    (emit (EvFsOpen (getPartAddr part)) r) = Some r2 ->
  file_predicate fuel context dev part r = Ok (with_helper resetStack r2).
Proof.
  intros Haddr Hfs Hi Hp Hrun. unfold file_predicate.
  rewrite decide_True by done. rewrite Hfs, Hi, Hp, Hrun. reflexivity.
Qed.

Lemma file_listing_walks_isolated_witness :
  let context := {| devices := ["/dev/sda"]; parts := ["4"]; paths := [];
                    inodes := [] |} in
  let ps := [Some swap_part;
             None;
             Some {| getPartAddr := 4; getDesc := Some "Linux (0x83)";
                     getFlags := 1; getStart := 4096; getLen := 204800;
                     part_fs := Some data_fs |}] in
  exists r' : Run,
    for_each_part (file_predicate 1025 context "/dev/sda") ps
      (fresh "/dev/sda") = Ok r'
    /\ clean (helper r')
    /\ same_device (helper (fresh "/dev/sda")) (helper r').
Proof.
  intros context ps.
  destruct (generateFiles_returns 1 data_fs "4" "/" 0
              (emit (EvFsOpen 4) (fresh "/dev/sda")) 1025) as [r2 Hrun].
  - lia.
  - apply data_fs_bounded.
  - simpl. lia.
  - by vm_compute.
  - simpl. lia.
  - assert (Hloop : for_each_part (file_predicate 1025 context "/dev/sda") ps
                      (fresh "/dev/sda") = Ok (with_helper resetStack r2)).
    { unfold ps. cbn [for_each_part].
      rewrite file_predicate_skip by (by vm_compute).
      cbn [mbind result_bind].
      rewrite (file_predicate_walk 1025 context "/dev/sda" _ data_fs
                 (fresh "/dev/sda") r2); try reflexivity.
      exact Hrun. }
    exists (with_helper resetStack r2). split; [exact Hloop|].
    apply (file_listing_walks_isolated 1025 context "/dev/sda" ps
             (fresh "/dev/sda") _); [|exact Hloop].
    split; reflexivity.
Defined.

(** * The partition listing, partition by partition: C5 and C6 *)

Lemma Forall2_bind_fmap {A B C D : Type} (P : C -> D -> Prop)
    (f : A -> B -> C) (g : A -> B -> D) (h : A -> list B) (l : list A) :
  (forall a b, P (f a b) (g a b)) ->
  Forall2 P (l ≫= fun a => f a <$> h a) (l ≫= fun a => g a <$> h a).
Proof.
  intros HP. induction l as [|a l IH]; [constructor|].
  rewrite !bind_cons. apply Forall2_app; [|done].
  apply Forall2_fmap, Forall_Forall2_diag, Forall_forall.
  intros b _. apply HP.
Qed.

(** The listing never fails: it has one row per listed partition, in the
    order of [listed], and the row is that of [partition_row]. *)
Lemma genDevicePartitions_listed (typeToName : Z -> string) (w : World)
    (context : QueryContext) (P : Row -> string * TskVsPartInfo -> Prop) :
  (forall dev part,
     P (partition_row typeToName dev (opened_helper w dev) part)
       (dev, part)) ->
  exists (rows : QueryData) (tr : list Event),
    genDevicePartitions typeToName w context = Ok (rows, tr)
    /\ Forall2 P rows (listed w context).
Proof.
  intros HP. unfold genDevicePartitions.
  rewrite for_each_device_listing. eexists _, _. split; [reflexivity|].
  cbn [fst app]. unfold listed.
  apply (Forall2_bind_fmap P
           (fun dev => partition_row typeToName dev (opened_helper w dev))
           (fun dev part => (dev, part))).
  exact HP.
Qed.

(** C5, as stated, fails when the product does not fit the 64 bits of the
    type it is computed in: for a partition at sector [2^55] of a disk with
    512-byte sectors, whose filesystem does not open, the product is [2^64]
    and the [offset] of the row is ["0"]. *)
Lemma partition_offset_wraps :
  observe ["partition"; "offset"; "inodes"]
    (genDevicePartitions type_names far_machine far_query)
  = Ok ([[Some "1"; Some "0"; Some "-1"]],
        [EvImgOpen "/dev/far"; EvVsOpen "/dev/far"; EvFsOpen 1])
  /\ listed far_machine far_query =
       [("/dev/far",
         {| getPartAddr := 1; getDesc := Some "Far"; getFlags := 1;
            getStart := 36028797018963968; getLen := 8; part_fs := None |})]
  /\ BIGINT (36028797018963968 * getBlockSize far_volume)
     = "18446744073709551616".
Proof. repeat split; by vm_compute. Qed.

(** C5, amended.  The listing never fails and has exactly one row for each
    partition that is not null of each device that opens, in the order of
    the devices and of the partitions: the row of a partition carries its
    device and its address.  When the filesystem of the partition does not
    open, [inodes] is ["-1"], [offset] is the start of the partition times
    the block size of the volume taken modulo [2^64], which is the product
    itself whenever the product is below [2^64], [blocks_size] is the block
    size of the volume, [blocks] the length of the partition and [flags] its
    flags.  When the filesystem opens, [type], [flags], [offset],
    [blocks_size], [blocks] and [inodes] are those of the filesystem. *)
Theorem partition_listing_fields (typeToName : Z -> string) (w : World)
    (context : QueryContext) :
  exists (rows : QueryData) (tr : list Event),
    genDevicePartitions typeToName w context = Ok (rows, tr)
    /\ Forall2
         (fun (row : Row) (listing : string * TskVsPartInfo) =>
            let dev := listing.1 in
            let part := listing.2 in
            let block_size := getBlockSize (img_volume (w dev)) in
            row !! "device" = Some dev
            /\ row !! "partition" = Some (to_string (getPartAddr part))
            /\ match part_fs part with
               | None =>
                   row !! "inodes" = Some "-1"
                   /\ row !! "offset" =
                        Some (BIGINT (wrap64 (getStart part * block_size)))
                   /\ (0 <= getStart part * block_size < two64 ->
                       row !! "offset" =
                         Some (BIGINT (getStart part * block_size)))
                   /\ row !! "blocks_size" = Some (BIGINT block_size)
                   /\ row !! "blocks" = Some (BIGINT (getLen part))
                   /\ row !! "flags" = Some (INTEGER (getFlags part))
               | Some fs =>
                   row !! "type" = Some (typeToName (getFsType fs))
                   /\ row !! "flags" = Some (INTEGER (getFsFlags fs))
                   /\ row !! "offset" = Some (BIGINT (getOffset fs))
                   /\ row !! "blocks_size" =
                        Some (BIGINT (getFsBlockSize fs))
                   /\ row !! "blocks" = Some (BIGINT (getBlockCount fs))
                   /\ row !! "inodes" = Some (BIGINT (getINumCount fs))
               end)
         rows (listed w context).
Proof.
  apply genDevicePartitions_listed. intros dev part. cbv zeta. cbn [fst snd].
  pose proof (partition_row_identity typeToName dev (opened_helper w dev)
                part) as Hid.
  unfold identity_columns in Hid. injection Hid as Hdev Hpart _.
  split; [done|]. split; [done|].
  unfold partition_row.
  change (volume_block_size (opened_helper w dev))
    with (getBlockSize (img_volume (w dev))).
  destruct (part_fs part) as [fs|]; cbv zeta.
  - repeat split; by simplify_map_eq.
  - split; [by simplify_map_eq|]. split; [by simplify_map_eq|].
    split; [|repeat split; by simplify_map_eq].
    intros Hfits. rewrite <- (wrap64_small _ Hfits) at 2.
    by simplify_map_eq.
Qed.

Lemma partition_listing_fields_witness :
  exists (rows : QueryData) (tr : list Event) (row : Row),
    genDevicePartitions type_names machine sda_query = Ok (rows, tr)
    /\ rows !! 2%nat = Some row
    /\ row !! "device" = Some "/dev/sda"
    /\ row !! "partition" = Some (to_string 3)
    /\ row !! "inodes" = Some "-1"
    /\ row !! "offset" = Some (BIGINT (2048 * 512))
    /\ row !! "blocks" = Some (BIGINT 2048)
    /\ row !! "flags" = Some (INTEGER 1).
Proof.
  destruct (partition_listing_fields type_names machine sda_query)
    as (rows & tr & Hrun & Hall).
  destruct (Forall2_lookup_r _ _ _ 2%nat ("/dev/sda", swap_part) Hall)
    as (row & Hrow & Hdev & Hpart & Hinodes & _ & Hoffset & _ & Hblocks
        & Hflags); [reflexivity|].
  exists rows, tr, row. split; [exact Hrun|]. split; [exact Hrow|].
  split; [exact Hdev|]. split; [exact Hpart|]. split; [exact Hinodes|].
  split; [apply Hoffset; by vm_compute|].
  split; [exact Hblocks|exact Hflags].
Defined.

(** C6.  The listing never fails and has exactly one row for each partition
    that is not null of each device that opens, in the order of the devices
    and of the partitions: the row of a partition carries its device and its
    address.  When the filesystem of the partition does not open, the
    [type] of its row follows the flags of the partition: ["meta"] when the
    meta flag is set, whether or not the unallocated flag is; otherwise
    ["unallocated"] when the unallocated flag is set; otherwise
    ["normal"]. *)
Theorem partition_type_priority (typeToName : Z -> string) (w : World)
    (context : QueryContext) :
  exists (rows : QueryData) (tr : list Event),
    genDevicePartitions typeToName w context = Ok (rows, tr)
    /\ Forall2
         (fun (row : Row) (listing : string * TskVsPartInfo) =>
            let dev := listing.1 in
            let part := listing.2 in
            let meta := Z.land (getFlags part) TSK_VS_PART_FLAG_META in
            let unalloc := Z.land (getFlags part) TSK_VS_PART_FLAG_UNALLOC in
            row !! "device" = Some dev
            /\ row !! "partition" = Some (to_string (getPartAddr part))
            /\ (part_fs part = None ->
                (meta <> 0 -> row !! "type" = Some "meta")
                /\ (meta = 0 -> unalloc <> 0 ->
                    row !! "type" = Some "unallocated")
                /\ (meta = 0 -> unalloc = 0 ->
                    row !! "type" = Some "normal")))
         rows (listed w context).
Proof.
  apply genDevicePartitions_listed. intros dev part. cbv zeta. cbn [fst snd].
  pose proof (partition_row_identity typeToName dev (opened_helper w dev)
                part) as Hid.
  unfold identity_columns in Hid. injection Hid as Hdev Hpart _.
  split; [done|]. split; [done|].
  unfold partition_row, partition_type. intros ->. cbv zeta.
  destruct (Z.eqb_spec (Z.land (getFlags part) TSK_VS_PART_FLAG_META) 0)
    as [Hm|Hm];
    destruct (Z.eqb_spec (Z.land (getFlags part) TSK_VS_PART_FLAG_UNALLOC) 0)
    as [Hu|Hu]; simpl;
    repeat split; intros; try done; by simplify_map_eq.
Qed.

Lemma partition_type_priority_witness :
  exists (rows : QueryData) (tr : list Event) (row : Row),
    genDevicePartitions type_names machine sda_query = Ok (rows, tr)
    /\ rows !! 0%nat = Some row
    /\ row !! "device" = Some "/dev/sda"
    /\ row !! "partition" = Some (to_string 0)
    /\ row !! "type" = Some "meta".
Proof.
  destruct (partition_type_priority type_names machine sda_query)
    as (rows & tr & Hrun & Hall).
  destruct (Forall2_lookup_r _ _ _ 0%nat ("/dev/sda", table_part) Hall)
    as (row & Hrow & Hdev & Hpart & Htype); [reflexivity|].
  exists rows, tr, row. split; [exact Hrun|]. split; [exact Hrow|].
  split; [exact Hdev|]. split; [exact Hpart|].
  apply (proj1 (Htype eq_refl)). by vm_compute.
Defined.
